(** * Permeability estimator (radial flow): the script [rate.py]

    The script reads nine numbers from a form, shows a point estimate of
    the permeability [k] (or a validation message), and plots one line per
    selected sensitivity option.

    Numbers.  The form fields are Python floats and the swept ranges are
    numpy [float64] arrays.  This development works in exact real
    arithmetic: a finite double is a real number [R], and rounding and
    overflow of IEEE doubles are left out.  What is kept is where the two
    languages are partial:
    - Python's [/] on two floats raises [ZeroDivisionError] when the
      divisor is zero;
    - numpy's [/] does not raise: dividing by zero gives [inf] or [nan];
    - [np.log] gives [-inf] at zero and [nan] below zero.
    A numpy value that is [inf], [-inf] or [nan] is [NonFinite]; in every
    expression of the script such a value only meets finite operands and
    stays non-finite.

    Since rounding, overflow and underflow are left out, a statement that
    a shown value is a finite number, or that orders shown values, is
    made only for inputs of bounded magnitude and with [<=] where two
    doubles can round to the same value; structural statements (which
    outcome, how many samples, which line equals which expression) need
    no such bound. *)

From Stdlib Require Import Reals Lra Lia List String Bool.
Import ListNotations.

Open Scope string_scope.
Open Scope list_scope.
Open Scope R_scope.

(** ** Outcomes of running Python code *)

Inductive exn := ZeroDivisionError.

Inductive outcome (A : Type) : Type :=
| Returns (a : A)
| Raises (e : exn).

Arguments Returns {A} a.
Arguments Raises {A} e.

Definition bind {A B : Type} (c : outcome A) (k : A -> outcome B) : outcome B :=
  match c with
  | Returns a => k a
  | Raises e => Raises e
  end.

Notation "x <- c ;; k" := (bind c (fun x => k))
  (at level 61, c at next level, right associativity).

(** ** Numbers *)

Module Np.

Inductive float64 :=
| Finite (r : R)
| NonFinite.

(** [np.log(x)] *)
Definition log (x : float64) : float64 :=
  match x with
  | Finite r => if Rlt_dec 0 r then Finite (ln r) else NonFinite
  | NonFinite => NonFinite
  end.

(** [x + c], [c * x] for a finite [c] *)
Definition add (x : float64) (c : R) : float64 :=
  match x with
  | Finite r => Finite (r + c)
  | NonFinite => NonFinite
  end.

Definition mul (c : R) (x : float64) : float64 :=
  match x with
  | Finite r => Finite (c * r)
  | NonFinite => NonFinite
  end.

(** [x / d] for a finite [d]: no exception, a zero divisor gives
    [inf] or [nan]. *)
Definition truediv (x : float64) (d : R) : float64 :=
  match x with
  | Finite r => if Req_dec_T d 0 then NonFinite else Finite (r / d)
  | NonFinite => NonFinite
  end.

(** [np.linspace(start, stop, num)], [endpoint=True]:
    [step = (stop - start) / (num - 1)], [y = arange(0, num) * step + start],
    and the last sample is set to [stop]. *)
Definition linspace (start stop : R) (num : nat) : list R :=
  let div := (num - 1)%nat in
  let step := (stop - start) / INR div in
  let y := map (fun j => INR j * step + start) (seq 0 num) in
  if (1 <? num)%nat then removelast y ++ [stop] else y.

End Np.

Import Np.

(** Python's [a / b] on floats. *)
Definition py_truediv (a b : R) : outcome R :=
  if Req_dec_T b 0 then Raises ZeroDivisionError else Returns (a / b).

(** ** Inputs (lines 16-24) *)

Record Inputs := {
  q : R;      (* Flow rate q (STB/day) *)
  pe : R;     (* Reservoir pressure Pe (psi) *)
  pwf : R;    (* Bottomhole flowing pressure Pwf (psi) *)
  h : R;      (* Layer thickness h (ft) *)
  mu : R;     (* Viscosity (cP) *)
  B : R;      (* Formation volume factor B (RB/STB) *)
  re : R;     (* Drainage radius re (ft) *)
  rw : R;     (* Wellbore radius rw (ft) *)
  skin : R    (* Skin factor s *)
}.

(** The values the form starts with. *)
Definition defaults : Inputs :=
  {| q := 500; pe := 2000; pwf := 1000; h := 20; mu := 1; B := 1;
     re := 1000; rw := 0.333; skin := 0 |}.

(** ** Permeability calculation (lines 27-32) *)

Definition delta_p (i : Inputs) : R := pe i - pwf i.

(** What the point-estimate panel shows: [st.error(msg)], or
    [st.success] with the value of [k] (its two-decimal formatting is
    left out). *)
Inductive panel :=
| st_error (msg : string)
| st_success (k : float64).

(** [np.log(re/rw)] with [re] and [rw] Python floats. *)
Definition log_ratio (i : Inputs) : outcome float64 :=
  r <- py_truediv (re i) (rw i) ;;
  Returns (log (Finite r)).

(** Line 31:
    [(162.6 * q * mu * B * (np.log(re/rw) + skin)) / (h * delta_p)]. *)
Definition k_line31 (i : Inputs) : outcome float64 :=
  l <- log_ratio i ;;
  Returns (truediv (mul (162.6 * q i * mu i * B i) (add l (skin i)))
                   (h i * delta_p i)).

Definition point_estimate (i : Inputs) : outcome panel :=
  if Rle_dec (delta_p i) 0
  then Returns (st_error "Pe must be greater than Pwf")
  else k <- k_line31 i ;; Returns (st_success k).

(** ** Sensitivity analysis (lines 35-91) *)

(** The choices of the multiselect (lines 39-41) and its default. *)
Definition choices : list string :=
  [ "Flow rate (q) (STB/day)"; "Layer thickness (h) (ft)";
    "Formation volume factor (B) (RB/STB)";
    "Drainage radius (re)"; "Viscosity (μ)"; "ΔP (Pe-Pwf)";
    "Reservoir Pressure (Pe)";
    "Bottomhole Flowing Pressure (Pwf)"; "Skin (s)" ].

Definition default_options : list string := [ "Drainage radius (re)" ].

(** One line of the plot: [ax.plot(xs, k_values, label=...)]. *)
Record series := {
  label : string;
  points : list (R * float64)
}.

Definition plot (lbl : string) (xs : list R) (k_of : R -> float64) : series :=
  {| label := lbl; points := map (fun x => (x, k_of x)) xs |}.

(** Lines 47-50.  [re_range/rw] divides an array: numpy's division. *)
Definition re_range : list R := linspace 200 5000 50.

Definition sweep_re (i : Inputs) : outcome series :=
  Returns (plot "Sensitivity to re" re_range (fun x =>
    truediv (mul (162.6 * q i * mu i * B i)
                 (add (log (truediv (Finite x) (rw i))) (skin i)))
            (h i * delta_p i))).

(** Lines 52-55. *)
Definition mu_range : list R := linspace 0.2 5 50.

Definition sweep_mu (i : Inputs) : outcome series :=
  l <- log_ratio i ;;
  Returns (plot "Sensitivity to μ" mu_range (fun x =>
    truediv (mul (162.6 * q i * x * B i) (add l (skin i)))
            (h i * delta_p i))).

(** Lines 57-60. *)
Definition dp_range : list R := linspace 100 3000 50.

Definition sweep_dp (i : Inputs) : outcome series :=
  l <- log_ratio i ;;
  Returns (plot "Sensitivity to ΔP" dp_range (fun x =>
    truediv (mul (162.6 * q i * mu i * B i) (add l (skin i)))
            (h i * x))).

(** Lines 62-65. *)
Definition pe_range (i : Inputs) : list R := linspace (pwf i + 100) 5000 50.

Definition sweep_pe (i : Inputs) : outcome series :=
  l <- log_ratio i ;;
  Returns (plot "Sensitivity to Pe" (pe_range i) (fun x =>
    truediv (mul (162.6 * q i * mu i * B i) (add l (skin i)))
            (h i * (x - pwf i)))).

(** Lines 67-70. *)
Definition pwf_range (i : Inputs) : list R := linspace 100 (pe i - 50) 50.

Definition sweep_pwf (i : Inputs) : outcome series :=
  l <- log_ratio i ;;
  Returns (plot "Sensitivity to Pwf" (pwf_range i) (fun x =>
    truediv (mul (162.6 * q i * mu i * B i) (add l (skin i)))
            (h i * (pe i - x)))).

(** Lines 72-75. *)
Definition s_range : list R := linspace (-5) 20 50.

Definition sweep_skin (i : Inputs) : outcome series :=
  l <- log_ratio i ;;
  Returns (plot "Sensitivity to Skin" s_range (fun x =>
    truediv (mul (162.6 * q i * mu i * B i) (add l x))
            (h i * delta_p i))).

(** Lines 77-80. *)
Definition q_range : list R := linspace 100 4000 50.

Definition sweep_q (i : Inputs) : outcome series :=
  l <- log_ratio i ;;
  Returns (plot "Sensitivity to q" q_range (fun x =>
    truediv (mul (162.6 * x * mu i * B i) (add l (skin i)))
            (h i * delta_p i))).

(** Lines 82-85. *)
Definition h_range : list R := linspace 5 100 50.

Definition sweep_h (i : Inputs) : outcome series :=
  l <- log_ratio i ;;
  Returns (plot "Sensitivity to h" h_range (fun x =>
    truediv (mul (162.6 * q i * mu i * B i) (add l (skin i)))
            (x * delta_p i))).

(** The eight [if "..." in options:] blocks, in the order of the script.
    No block tests "Formation volume factor (B) (RB/STB)". *)
Definition blocks (i : Inputs) : list (string * outcome series) :=
  [ ("Drainage radius (re)", sweep_re i);
    ("Viscosity (μ)", sweep_mu i);
    ("ΔP (Pe-Pwf)", sweep_dp i);
    ("Reservoir Pressure (Pe)", sweep_pe i);
    ("Bottomhole Flowing Pressure (Pwf)", sweep_pwf i);
    ("Skin (s)", sweep_skin i);
    ("Flow rate (q) (STB/day)", sweep_q i);
    ("Layer thickness (h) (ft)", sweep_h i) ].

(** [name in options] *)
Definition selected (name : string) (options : list string) : bool :=
  existsb (String.eqb name) options.

Fixpoint run_blocks (bs : list (string * outcome series))
    (options : list string) : outcome (list series) :=
  match bs with
  | [] => Returns []
  | (name, blk) :: rest =>
      if selected name options
      then s <- blk ;;
           ax <- run_blocks rest options ;;
           Returns (s :: ax)
      else run_blocks rest options
  end.

(** Lines 45-91: the lines drawn on the figure. *)
Definition plots (i : Inputs) (options : list string) : outcome (list series) :=
  run_blocks (blocks i) options.

(** The sweep of one option alone. *)
Definition sweep (name : string) (i : Inputs) : outcome (list series) :=
  plots i [name].

(** The whole script: the point-estimate panel, then the figure.  An
    exception stops the script where it is raised. *)
Definition app (i : Inputs) (options : list string)
  : outcome (panel * list series) :=
  p <- point_estimate i ;;
  ax <- plots i options ;;
  Returns (p, ax).

(** ** Vocabulary of the properties *)

(** The formula as the specification writes it, over the reals:
    [k = 162.6 * q * mu * B * (ln(re / rw) + s) / (h * (pe - pwf))]. *)
Definition k_spec (i : Inputs) : R :=
  162.6 * q i * mu i * B i * (ln (re i / rw i) + skin i)
  / (h i * (pe i - pwf i)).


(** The inputs with one field replaced. *)
Definition with_q (i : Inputs) (x : R) : Inputs :=
  {| q := x; pe := pe i; pwf := pwf i; h := h i; mu := mu i; B := B i;
     re := re i; rw := rw i; skin := skin i |}.
Definition with_h (i : Inputs) (x : R) : Inputs :=
  {| q := q i; pe := pe i; pwf := pwf i; h := x; mu := mu i; B := B i;
     re := re i; rw := rw i; skin := skin i |}.
Definition with_mu (i : Inputs) (x : R) : Inputs :=
  {| q := q i; pe := pe i; pwf := pwf i; h := h i; mu := x; B := B i;
     re := re i; rw := rw i; skin := skin i |}.
Definition with_re (i : Inputs) (x : R) : Inputs :=
  {| q := q i; pe := pe i; pwf := pwf i; h := h i; mu := mu i; B := B i;
     re := x; rw := rw i; skin := skin i |}.
Definition with_skin (i : Inputs) (x : R) : Inputs :=
  {| q := q i; pe := pe i; pwf := pwf i; h := h i; mu := mu i; B := B i;
     re := re i; rw := rw i; skin := x |}.
Definition with_pressures (i : Inputs) (p pw : R) : Inputs :=
  {| q := q i; pe := p; pwf := pw; h := h i; mu := mu i; B := B i;
     re := re i; rw := rw i; skin := skin i |}.


(** A list of samples in strictly increasing order. *)
Definition strictly_increasing (l : list R) : Prop :=
  forall j k : nat, (j < k < List.length l)%nat -> nth j l 0 < nth k l 0.

(** The axis values of a line. *)
Definition xs (s : series) : list R := map fst (points s).

(** Both radii replaced. *)
Definition with_radii (i : Inputs) (r rwell : R) : Inputs :=
  {| q := q i; pe := pe i; pwf := pwf i; h := h i; mu := mu i; B := B i;
     re := r; rw := rwell; skin := skin i |}.

(** The options whose block takes [np.log(re/rw)] of the two Python
    floats (lines 54, 59, 64, 69, 74, 79 and 84). *)
Definition scalar_ratio_options : list string :=
  [ "Viscosity (μ)"; "ΔP (Pe-Pwf)"; "Reservoir Pressure (Pe)";
    "Bottomhole Flowing Pressure (Pwf)"; "Skin (s)";
    "Flow rate (q) (STB/day)"; "Layer thickness (h) (ft)" ].

(** The options whose block divides by [delta_p] (lines 49, 54, 74, 79
    and 84). *)
Definition delta_p_options : list string :=
  [ "Drainage radius (re)"; "Viscosity (μ)"; "Skin (s)";
    "Flow rate (q) (STB/day)"; "Layer thickness (h) (ft)" ].

(** The [k] values of a line. *)
Definition ks (s : series) : list float64 := map snd (points s).

Definition strictly_decreasing (l : list R) : Prop :=
  forall j k : nat, (j < k < List.length l)%nat -> nth k l 0 < nth j l 0.

(** The option each block tests and the label of the line it plots
    (lines 47-85), in the order of the script. *)
Definition line_labels : list (string * string) :=
  [ ("Drainage radius (re)", "Sensitivity to re");
    ("Viscosity (μ)", "Sensitivity to μ");
    ("ΔP (Pe-Pwf)", "Sensitivity to ΔP");
    ("Reservoir Pressure (Pe)", "Sensitivity to Pe");
    ("Bottomhole Flowing Pressure (Pwf)", "Sensitivity to Pwf");
    ("Skin (s)", "Sensitivity to Skin");
    ("Flow rate (q) (STB/day)", "Sensitivity to q");
    ("Layer thickness (h) (ft)", "Sensitivity to h") ].

(** Magnitudes.  A theorem that concludes that a shown value is a finite
    number, or that compares shown values, keeps the inputs away from the
    overflow and underflow of doubles, which the exact reals of this
    development do not have. *)
Definition bounded (x : R) : Prop := Rabs x <= 1e30.

Definition moderate (x : R) : Prop := 1e-30 <= x <= 1e30.

Definition in_range (i : Inputs) : Prop :=
  bounded (q i) /\ bounded (mu i) /\ bounded (B i) /\ bounded (skin i) /\
  1e-30 <= Rabs (h i) /\ 1e-30 <= pe i - pwf i /\ moderate (re i / rw i).

Definition well_scaled (i : Inputs) : Prop :=
  moderate (q i) /\ moderate (mu i) /\ moderate (B i) /\ moderate (h i) /\
  moderate (pe i - pwf i) /\ moderate (re i / rw i) /\ bounded (skin i).

Definition non_decreasing (l : list R) : Prop :=
  forall j k : nat, (j < k < List.length l)%nat -> nth j l 0 <= nth k l 0.

Definition non_increasing (l : list R) : Prop :=
  forall j k : nat, (j < k < List.length l)%nat -> nth k l 0 <= nth j l 0.

(** ** Proof steps over the blocks *)

(** Decide the membership tests of the blocks on a literal selection. *)
Ltac eval_selected :=
  repeat match goal with
  | |- context [selected ?a ?l] =>
      let b := eval vm_compute in (selected a l) in
      change (selected a l) with b
  end;
  cbv iota.

(** Case analysis on the eight blocks. *)
Ltac block_cases H :=
  unfold blocks in H; cbn [In] in H;
  repeat (destruct H as [H | H]; [injection H as <- <- |]);
  [.. | contradiction].

(** Run one block to its line, or dismiss it when it raises; the goal is
    [blk = Returns s -> _]. *)
Ltac block_line :=
  unfold sweep_re, sweep_mu, sweep_dp, sweep_pe, sweep_pwf, sweep_skin,
    sweep_q, sweep_h;
  try (destruct (log_ratio _) as [? | ?]; cbn [bind];
       [| let E := fresh in intros E; discriminate E]);
  let E := fresh in intros E; injection E as <-.

(** * Properties *)

(** ** The point estimate *)

Lemma py_truediv_ok (a b : R) : b <> 0 -> py_truediv a b = Returns (a / b).
Proof.
  intros Hb. unfold py_truediv. destruct (Req_dec_T b 0); [contradiction | reflexivity].
Qed.

Lemma py_truediv_zero (a : R) : py_truediv a 0 = Raises ZeroDivisionError.
Proof.
  unfold py_truediv. destruct (Req_dec_T 0 0) as [_ | n]; [reflexivity | now destruct n].
Qed.

Lemma log_pos (r : R) : 0 < r -> log (Finite r) = Finite (ln r).
Proof.
  intros Hr. simpl. destruct (Rlt_dec 0 r); [reflexivity | contradiction].
Qed.

Lemma log_nonpos (r : R) : r <= 0 -> log (Finite r) = NonFinite.
Proof.
  intros Hr. simpl. destruct (Rlt_dec 0 r); [lra | reflexivity].
Qed.

Lemma truediv_ok (r d : R) : d <> 0 -> truediv (Finite r) d = Finite (r / d).
Proof.
  intros Hd. simpl. destruct (Req_dec_T d 0); [contradiction | reflexivity].
Qed.

Lemma truediv_zero (x : float64) : truediv x 0 = NonFinite.
Proof.
  destruct x; simpl; [| reflexivity].
  destruct (Req_dec_T 0 0) as [_ | n]; [reflexivity | now destruct n].
Qed.

Lemma log_ratio_ok (i : Inputs) :
  rw i <> 0 -> 0 < re i / rw i -> log_ratio i = Returns (Finite (ln (re i / rw i))).
Proof.
  intros Hrw Hpos. unfold log_ratio.
  rewrite py_truediv_ok by assumption. cbn [bind].
  now rewrite log_pos.
Qed.

(** Line 31 on inputs where every operation is defined. *)
Lemma k_line31_ok (i : Inputs) :
  rw i <> 0 -> 0 < re i / rw i -> h i * delta_p i <> 0 ->
  k_line31 i = Returns (Finite (k_spec i)).
Proof.
  intros Hrw Hpos Hden. unfold k_line31.
  rewrite log_ratio_ok by assumption. cbn [bind add mul].
  rewrite truediv_ok by assumption. reflexivity.
Qed.

Lemma point_estimate_ok (i : Inputs) :
  pwf i < pe i -> rw i <> 0 -> 0 < re i / rw i -> h i <> 0 ->
  point_estimate i = Returns (st_success (Finite (k_spec i))).
Proof.
  intros Hp Hrw Hpos Hh. unfold point_estimate.
  destruct (Rle_dec (delta_p i) 0) as [Hle | _].
  - unfold delta_p in Hle. lra.
  - rewrite k_line31_ok; auto.
    unfold delta_p. apply Rmult_integral_contrapositive_currified; lra.
Qed.

Lemma bounded_intro (x : R) : -1e30 <= x <= 1e30 -> bounded x.
Proof. intros H. unfold bounded. apply Rabs_le. lra. Qed.

Lemma defaults_in_range : in_range defaults.
Proof.
  unfold in_range, moderate. cbn [defaults q mu B re rw skin h pe pwf].
  repeat (split; [apply bounded_intro; lra |]).
  rewrite Rabs_pos_eq by lra. lra.
Qed.


Lemma defaults_well_scaled : well_scaled defaults.
Proof.
  unfold well_scaled, moderate. cbn [defaults q mu B re rw skin h pe pwf].
  repeat (split; [lra |]). apply bounded_intro. lra.
Qed.



(** C2: the point estimate ends in the validation message exactly when
    [pe <= pwf], whatever the other seven fields; the message is
    "Pe must be greater than Pwf", and no value of [k] is shown then. *)
Theorem point_estimate_validation (i : Inputs) :
  (pe i <= pwf i <->
     exists msg, point_estimate i = Returns (st_error msg)) /\
  (forall msg, point_estimate i = Returns (st_error msg) ->
     msg = "Pe must be greater than Pwf") /\
  (pe i <= pwf i ->
     point_estimate i = Returns (st_error "Pe must be greater than Pwf") /\
     forall k, point_estimate i <> Returns (st_success k)) /\
  (forall j : Inputs, pe j = pe i -> pwf j = pwf i -> pe i <= pwf i ->
     point_estimate j = point_estimate i).
Proof.
  assert (Hle : forall a : Inputs, pe a <= pwf a ->
            point_estimate a = Returns (st_error "Pe must be greater than Pwf")).
  { intros a Ha. unfold point_estimate, delta_p.
    destruct (Rle_dec (pe a - pwf a) 0); [reflexivity | lra]. }
  assert (Hgt : forall msg, point_estimate i = Returns (st_error msg) ->
            pe i <= pwf i).
  { intros msg. unfold point_estimate, delta_p.
    destruct (Rle_dec (pe i - pwf i) 0) as [Hd | Hd]; [intros _; lra |].
    destruct (k_line31 i); cbn [bind]; discriminate. }
  repeat split.
  - intros H. eexists. apply Hle, H.
  - intros [msg H]. apply Hgt with msg, H.
  - intros msg H. pose proof (Hle i (Hgt msg H)) as E.
    rewrite E in H. now inversion H.
  - apply Hle, H.
  - intros k. rewrite (Hle i H). discriminate.
  - intros j Hpe Hpwf H. rewrite (Hle i H). apply Hle. lra.
Qed.

(** ** Linearly spaced samples *)

Section Linspace.

Variables start stop : R.

Lemma linspace_shape (m : nat) :
  linspace start stop (S (S m))
  = map (fun j => INR j * ((stop - start) / INR (S m)) + start) (seq 0 (S m))
    ++ [stop].
Proof.
  unfold linspace.
  replace (1 <? S (S m))%nat with true by (symmetry; apply Nat.ltb_lt; lia).
  replace (S (S m) - 1)%nat with (S m) by lia.
  f_equal.
  rewrite (seq_S (S m) 0), map_app. simpl map at 2.
  rewrite removelast_last. reflexivity.
Qed.

Lemma linspace_length (n : nat) : List.length (linspace start stop n) = n.
Proof.
  destruct n as [| [| m]]; [reflexivity | reflexivity |].
  rewrite linspace_shape, length_app, length_map, length_seq. simpl. lia.
Qed.

Lemma linspace_nth (n j : nat) :
  (j < n - 1)%nat ->
  nth j (linspace start stop n) 0
  = start + INR j * ((stop - start) / INR (n - 1)).
Proof.
  intros Hj. destruct n as [| [| m]]; [lia | lia |].
  replace (S (S m) - 1)%nat with (S m) in * by lia.
  rewrite linspace_shape, app_nth1 by (rewrite length_map, length_seq; lia).
  set (f := fun j : nat => INR j * ((stop - start) / INR (S m)) + start).
  rewrite (nth_indep _ 0 (f 0%nat)) by (rewrite length_map, length_seq; lia).
  rewrite map_nth, seq_nth by lia. unfold f. simpl (0 + j)%nat. lra.
Qed.

Lemma linspace_last (n : nat) :
  (1 < n)%nat -> nth (n - 1) (linspace start stop n) 0 = stop.
Proof.
  intros Hn. destruct n as [| [| m]]; [lia | lia |].
  replace (S (S m) - 1)%nat with (S m) by lia.
  rewrite linspace_shape, app_nth2 by (rewrite length_map, length_seq; lia).
  rewrite length_map, length_seq, Nat.sub_diag. reflexivity.
Qed.

Lemma linspace_first (n : nat) :
  (1 < n)%nat -> nth 0 (linspace start stop n) 0 = start.
Proof.
  intros Hn. rewrite linspace_nth by lia. simpl INR. lra.
Qed.

(** Every sample is [start + t * (stop - start)] for some [0 <= t <= 1]. *)
Lemma linspace_convex (n j : nat) :
  (1 < n)%nat -> (j < n)%nat ->
  exists t : R, 0 <= t <= 1 /\
    nth j (linspace start stop n) 0 = start + t * (stop - start).
Proof.
  intros Hn Hj.
  assert (Hpos : 0 < INR (n - 1)) by (apply lt_0_INR; lia).
  destruct (Nat.eq_dec j (n - 1)) as [-> | Hne].
  - exists 1. split; [lra |]. rewrite linspace_last by assumption. lra.
  - exists (INR j / INR (n - 1)). split.
    + split.
      * apply Rmult_le_pos; [apply pos_INR | left; now apply Rinv_0_lt_compat].
      * apply Rmult_le_reg_r with (INR (n - 1)); [assumption |].
        unfold Rdiv. rewrite Rmult_assoc, Rinv_l by lra.
        rewrite Rmult_1_r, Rmult_1_l. apply le_INR. lia.
    + rewrite linspace_nth by lia. unfold Rdiv. ring.
Qed.

Lemma linspace_increasing (n : nat) :
  start < stop -> strictly_increasing (linspace start stop n).
Proof.
  intros Hlt j k [Hjk Hk]. rewrite linspace_length in Hk.
  assert (Hpos : 0 < INR (n - 1)) by (apply lt_0_INR; lia).
  assert (Hstep : 0 < (stop - start) / INR (n - 1)).
  { apply Rmult_lt_0_compat; [lra | now apply Rinv_0_lt_compat]. }
  rewrite (linspace_nth n j) by lia.
  destruct (Nat.eq_dec k (n - 1)) as [-> | Hne].
  - rewrite linspace_last by lia.
    assert (Hj : INR j < INR (n - 1)) by (apply lt_INR; lia).
    replace stop with (start + INR (n - 1) * ((stop - start) / INR (n - 1)))
      at 2 by (field; lra).
    apply Rplus_lt_compat_l, Rmult_lt_compat_r; assumption.
  - rewrite (linspace_nth n k) by lia.
    apply Rplus_lt_compat_l, Rmult_lt_compat_r; [assumption |].
    apply lt_INR; lia.
Qed.

Lemma linspace_between (n : nat) (x : R) :
  (1 < n)%nat -> In x (linspace start stop n) ->
  Rmin start stop <= x <= Rmax start stop.
Proof.
  intros Hn Hin.
  destruct (In_nth _ _ 0 Hin) as [j [Hj <-]]. rewrite linspace_length in Hj.
  destruct (linspace_convex n j Hn Hj) as [t [[Ht0 Ht1] ->]].
  unfold Rmin, Rmax. destruct (Rle_dec start stop); split; nra.
Qed.

Lemma linspace_has_start (n : nat) :
  (1 < n)%nat -> In start (linspace start stop n).
Proof.
  intros Hn. rewrite <- (linspace_first n Hn) at 1.
  apply nth_In. rewrite linspace_length. lia.
Qed.

Lemma linspace_has_stop (n : nat) :
  (1 < n)%nat -> In stop (linspace start stop n).
Proof.
  intros Hn. rewrite <- (linspace_last n Hn) at 1.
  apply nth_In. rewrite linspace_length. lia.
Qed.

End Linspace.

(** ** Lines of the plot *)

Lemma xs_plot (lbl : string) (l : list R) (f : R -> float64) :
  xs (plot lbl l f) = l.
Proof.
  unfold xs, plot. cbn [points]. rewrite map_map. cbn [fst]. apply map_id.
Qed.

Lemma points_plot_length (lbl : string) (l : list R) (f : R -> float64) :
  List.length (points (plot lbl l f)) = List.length l.
Proof. unfold plot. cbn [points]. apply length_map. Qed.

Lemma points_plot_In (lbl : string) (l : list R) (f : R -> float64) (x : R) (k : float64) :
  In (x, k) (points (plot lbl l f)) <-> In x l /\ k = f x.
Proof.
  unfold plot. cbn [points]. rewrite in_map_iff. split.
  - intros [y [E Hy]]. inversion E; subst. auto.
  - intros [Hx ->]. exists x. auto.
Qed.

Lemma sweep_re_alone (i : Inputs) :
  sweep "Drainage radius (re)" i = (s <- sweep_re i ;; Returns [s]).
Proof.
  unfold sweep, plots, blocks. cbn [run_blocks]. eval_selected. reflexivity.
Qed.

(** On the re axis the sweep divides by [rw] with numpy's division; the
    point formula divides with Python's. They agree unless [rw = 0]. *)
Lemma re_sample_line31 (i : Inputs) (x : R) :
  rw i <> 0 ->
  k_line31 (with_re i x)
  = Returns (truediv (mul (162.6 * q i * mu i * B i)
                          (add (log (truediv (Finite x) (rw i))) (skin i)))
                     (h i * delta_p i)).
Proof.
  intros Hrw. unfold k_line31, log_ratio. cbn [with_re re rw q mu B skin h].
  rewrite py_truediv_ok, truediv_ok by assumption. reflexivity.
Qed.

(** C3, as amended: for every input the sweep of the drainage radius
    gives exactly 50 pairs, whose axis values are [200 + j * (4800/49)]
    for [j = 0..49] (from 200 to 5000 inclusive, strictly increasing);
    when [rw <> 0], each paired [k] is the value of the point-estimate
    formula (line 31) on the input with [re] replaced by the sample. *)
Theorem sweep_re_series (i : Inputs) :
  exists s : series,
    sweep "Drainage radius (re)" i = Returns [s] /\
    List.length (points s) = 50%nat /\
    (forall j : nat, (j < 50)%nat ->
       nth j (xs s) 0 = 200 + INR j * ((5000 - 200) / 49)) /\
    nth 0 (xs s) 0 = 200 /\ nth 49 (xs s) 0 = 5000 /\
    strictly_increasing (xs s) /\
    (rw i <> 0 ->
       forall (x : R) (k : float64), In (x, k) (points s) ->
         k_line31 (with_re i x) = Returns k).
Proof.
  eexists. split; [rewrite sweep_re_alone; unfold sweep_re; cbn [bind]; reflexivity |].
  rewrite xs_plot, points_plot_length. unfold re_range.
  split; [apply linspace_length |].
  split.
  { intros j Hj. destruct (Nat.eq_dec j 49) as [-> | Hne].
    - pose proof (linspace_last 200 5000 50 ltac:(lia)) as Hlast.
      cbn [Nat.sub] in Hlast. rewrite Hlast, INR_IZR_INZ.
      cbn [Z.of_nat Pos.of_succ_nat Pos.succ]. lra.
    - rewrite linspace_nth by lia.
      rewrite (INR_IZR_INZ (50 - 1)).
      cbn [Nat.sub Z.of_nat Pos.of_succ_nat Pos.succ]. reflexivity. }
  split; [apply (linspace_first 200 5000 50); lia |].
  split; [apply (linspace_last 200 5000 50); lia |].
  split; [apply linspace_increasing; lra |].
  intros Hrw x k Hin. apply points_plot_In in Hin. destruct Hin as [_ ->].
  now apply re_sample_line31.
Qed.

(** C3 as stated fails at [rw = 0]: the sweep pairs the sample 200 with a
    non-finite value, while the point formula on the input with
    [re = 200] raises [ZeroDivisionError]. *)
Lemma sweep_re_zero_rw :
  let i := {| q := 500; pe := 2000; pwf := 1000; h := 20; mu := 1; B := 1;
              re := 1000; rw := 0; skin := 0 |} in
  exists s : series,
    sweep "Drainage radius (re)" i = Returns [s] /\
    In (200, NonFinite) (points s) /\
    k_line31 (with_re i 200) = Raises ZeroDivisionError /\
    k_line31 (with_re i 200) <> Returns NonFinite.
Proof.
  intros i.
  assert (E : k_line31 (with_re i 200) = Raises ZeroDivisionError).
  { unfold k_line31, log_ratio. cbn [with_re i re rw].
    rewrite py_truediv_zero. reflexivity. }
  eexists. split; [rewrite sweep_re_alone; unfold sweep_re; cbn [bind]; reflexivity |].
  split; [| split; [exact E | rewrite E; discriminate]].
  apply points_plot_In. split.
  - apply linspace_has_start. lia.
  - cbn [i rw]. rewrite truediv_zero. reflexivity.
Qed.

(** ** Monotonicity of the point estimate *)

Lemma div_lt_num (a b d : R) : 0 < d -> a < b -> a / d < b / d.
Proof.
  intros Hd Hab. apply Rmult_lt_compat_r; [now apply Rinv_0_lt_compat | assumption].
Qed.

Lemma div_lt_den (n d1 d2 : R) : 0 < n -> 0 < d1 -> d1 < d2 -> n / d2 < n / d1.
Proof.
  intros Hn Hd1 Hd. apply Rmult_lt_compat_l; [assumption |].
  apply Rinv_lt_contravar; [| assumption].
  apply Rmult_lt_0_compat; lra.
Qed.

Lemma div_lt_den_neg (n d1 d2 : R) : n < 0 -> 0 < d1 -> d1 < d2 -> n / d1 < n / d2.
Proof.
  intros Hn Hd1 Hd.
  pose proof (div_lt_den (- n) d1 d2 ltac:(lra) Hd1 Hd) as H.
  unfold Rdiv in *. lra.
Qed.

Lemma coefficient_pos (a b c : R) : 0 < a -> 0 < b -> 0 < c -> 0 < 162.6 * a * b * c.
Proof.
  intros Ha Hb Hc.
  apply Rmult_lt_0_compat; [| assumption].
  apply Rmult_lt_0_compat; [| assumption].
  apply Rmult_lt_0_compat; [lra | assumption].
Qed.

Section Monotone.

Variable i : Inputs.
Hypothesis Hq : 0 < q i.
Hypothesis Hmu : 0 < mu i.
Hypothesis HB : 0 < B i.
Hypothesis Hh : 0 < h i.
Hypothesis Hdp : 0 < pe i - pwf i.
Hypothesis Hrw : rw i <> 0.
Hypothesis Hratio : 1 < re i / rw i.


Lemma mono_skin (s1 s2 : R) :
  s1 < s2 -> k_spec (with_skin i s1) < k_spec (with_skin i s2).
Proof.
  intros Hs. unfold k_spec. cbn [with_skin q mu B re rw skin h pe pwf].
  apply div_lt_num; [apply Rmult_lt_0_compat; lra |].
  apply Rmult_lt_compat_l; [| lra].
  now apply coefficient_pos.
Qed.

Hypothesis Hlog : 0 < ln (re i / rw i) + skin i.

Lemma mono_q (x1 x2 : R) :
  x1 < x2 -> k_spec (with_q i x1) < k_spec (with_q i x2).
Proof.
  intros Hx. unfold k_spec. cbn [with_q q mu B re rw skin h pe pwf].
  apply div_lt_num; [apply Rmult_lt_0_compat; lra |].
  repeat (apply Rmult_lt_compat_r; [assumption |]).
  apply Rmult_lt_compat_l; lra.
Qed.

Lemma mono_mu (x1 x2 : R) :
  x1 < x2 -> k_spec (with_mu i x1) < k_spec (with_mu i x2).
Proof.
  intros Hx. unfold k_spec. cbn [with_mu q mu B re rw skin h pe pwf].
  apply div_lt_num; [apply Rmult_lt_0_compat; lra |].
  repeat (apply Rmult_lt_compat_r; [assumption |]).
  apply Rmult_lt_compat_l; [| assumption].
  apply Rmult_lt_0_compat; lra.
Qed.


Lemma numerator_pos : 0 < 162.6 * q i * mu i * B i * (ln (re i / rw i) + skin i).
Proof.
  apply Rmult_lt_0_compat; [| assumption]. now apply coefficient_pos.
Qed.

Lemma mono_h (x1 x2 : R) :
  0 < x1 -> x1 < x2 -> k_spec (with_h i x2) < k_spec (with_h i x1).
Proof.
  intros H1 Hx. unfold k_spec. cbn [with_h q mu B re rw skin h pe pwf].
  apply div_lt_den; [apply numerator_pos | apply Rmult_lt_0_compat; lra |].
  apply Rmult_lt_compat_r; assumption.
Qed.

Lemma mono_drawdown (p1 w1 p2 w2 : R) :
  0 < p1 - w1 -> p1 - w1 < p2 - w2 ->
  k_spec (with_pressures i p2 w2) < k_spec (with_pressures i p1 w1).
Proof.
  intros H1 Hx. unfold k_spec. cbn [with_pressures q mu B re rw skin h pe pwf].
  apply div_lt_den; [apply numerator_pos | apply Rmult_lt_0_compat; lra |].
  apply Rmult_lt_compat_l; assumption.
Qed.

End Monotone.


(** ** Bounds on the logarithm of the default radius ratio

    [ln] is bounded through repeated square roots: if [a <= b * b] then
    [ln a <= 2 * ln b], and [ln b <= b - 1]; symmetrically from below with
    [1 - 1/b <= ln b].  Sixteen rounded square roots of [1000/0.333]
    bring the argument close enough to 1. *)

Lemma ln_le_pred (x : R) : 0 < x -> ln x <= x - 1.
Proof.
  intros Hx. pose proof (exp_ineq1_le (ln x)) as H.
  rewrite exp_ln in H by assumption. lra.
Qed.

Lemma ln_ge_inv (x : R) : 0 < x -> 1 - / x <= ln x.
Proof.
  intros Hx. pose proof (ln_le_pred (/ x) (Rinv_0_lt_compat x Hx)) as H.
  rewrite ln_Rinv in H by assumption. lra.
Qed.

Lemma ln_mono (x y : R) : 0 < x -> x <= y -> ln x <= ln y.
Proof.
  intros Hx [Hlt | ->]; [left; now apply ln_increasing | right; reflexivity].
Qed.

Lemma ln_root_above (a b : R) : 0 < a -> 0 < b -> a <= b * b -> ln a <= 2 * ln b.
Proof.
  intros Ha Hb Hab. replace (2 * ln b) with (ln (b * b)).
  - now apply ln_mono.
  - rewrite ln_mult by assumption. lra.
Qed.

Lemma ln_root_below (a b : R) : 0 < b -> b * b <= a -> 2 * ln b <= ln a.
Proof.
  intros Hb Hab. replace (2 * ln b) with (ln (b * b)).
  - apply ln_mono; [apply Rmult_lt_0_compat; assumption | assumption].
  - rewrite ln_mult by assumption. lra.
Qed.

Lemma ln_ratio_upper : ln (1000 / 0.333) < 8.0079.
Proof.
  assert (H0 : ln (1000 / 0.333) <= 2 * ln 54.799662435120) by (apply ln_root_above; lra).
  assert (H1 : ln 54.799662435120 <= 2 * ln 7.402679409182) by (apply ln_root_above; lra).
  assert (H2 : ln 7.402679409182 <= 2 * ln 2.720786542378) by (apply ln_root_above; lra).
  assert (H3 : ln 2.720786542378 <= 2 * ln 1.649480688696) by (apply ln_root_above; lra).
  assert (H4 : ln 1.649480688696 <= 2 * ln 1.284321100308) by (apply ln_root_above; lra).
  assert (H5 : ln 1.284321100308 <= 2 * ln 1.133278915497) by (apply ln_root_above; lra).
  assert (H6 : ln 1.133278915497 <= 2 * ln 1.064555736210) by (apply ln_root_above; lra).
  assert (H7 : ln 1.064555736210 <= 2 * ln 1.031773103066) by (apply ln_root_above; lra).
  assert (H8 : ln 1.031773103066 <= 2 * ln 1.015762326072) by (apply ln_root_above; lra).
  assert (H9 : ln 1.015762326072 <= 2 * ln 1.007850349046) by (apply ln_root_above; lra).
  assert (H10 : ln 1.007850349046 <= 2 * ln 1.003917501116) by (apply ln_root_above; lra).
  assert (H11 : ln 1.003917501116 <= 2 * ln 1.001956835955) by (apply ln_root_above; lra).
  assert (H12 : ln 1.001956835955 <= 2 * ln 1.000977939795) by (apply ln_root_above; lra).
  assert (H13 : ln 1.000977939795 <= 2 * ln 1.000488850411) by (apply ln_root_above; lra).
  assert (H14 : ln 1.000488850411 <= 2 * ln 1.000244395341) by (apply ln_root_above; lra).
  assert (H15 : ln 1.000244395341 <= 2 * ln 1.000122190206) by (apply ln_root_above; lra).
  pose proof (ln_le_pred 1.000122190206 ltac:(lra)) as Hend.
  lra.
Qed.

Lemma ln_ratio_lower : 8.0068 < ln (1000 / 0.333).
Proof.
  assert (H0 : 2 * ln 54.799662435119 <= ln (1000 / 0.333)) by (apply ln_root_below; lra).
  assert (H1 : 2 * ln 7.402679409181 <= ln 54.799662435119) by (apply ln_root_below; lra).
  assert (H2 : 2 * ln 2.720786542377 <= ln 7.402679409181) by (apply ln_root_below; lra).
  assert (H3 : 2 * ln 1.649480688694 <= ln 2.720786542377) by (apply ln_root_below; lra).
  assert (H4 : 2 * ln 1.284321100307 <= ln 1.649480688694) by (apply ln_root_below; lra).
  assert (H5 : 2 * ln 1.133278915495 <= ln 1.284321100307) by (apply ln_root_below; lra).
  assert (H6 : 2 * ln 1.064555736208 <= ln 1.133278915495) by (apply ln_root_below; lra).
  assert (H7 : 2 * ln 1.031773103064 <= ln 1.064555736208) by (apply ln_root_below; lra).
  assert (H8 : 2 * ln 1.015762326070 <= ln 1.031773103064) by (apply ln_root_below; lra).
  assert (H9 : 2 * ln 1.007850349044 <= ln 1.015762326070) by (apply ln_root_below; lra).
  assert (H10 : 2 * ln 1.003917501114 <= ln 1.007850349044) by (apply ln_root_below; lra).
  assert (H11 : 2 * ln 1.001956835953 <= ln 1.003917501114) by (apply ln_root_below; lra).
  assert (H12 : 2 * ln 1.000977939793 <= ln 1.001956835953) by (apply ln_root_below; lra).
  assert (H13 : 2 * ln 1.000488850409 <= ln 1.000977939793) by (apply ln_root_below; lra).
  assert (H14 : 2 * ln 1.000244395339 <= ln 1.000488850409) by (apply ln_root_below; lra).
  assert (H15 : 2 * ln 1.000122190204 <= ln 1.000244395339) by (apply ln_root_below; lra).
  pose proof (ln_ge_inv 1.000122190204 ltac:(lra)) as Hend.
  lra.
Qed.

(** ** The default scenario *)

Lemma default_k_value :
  k_spec defaults = 162.6 * 500 * 1 * 1 * (ln (1000 / 0.333) + 0) / (20 * 1000).
Proof.
  unfold k_spec. cbn [defaults q mu B re rw skin h pe pwf].
  replace (2000 - 1000) with 1000 by lra. reflexivity.
Qed.

Lemma default_k_bounds :
  32.54 < 162.6 * 500 * 1 * 1 * (ln (1000 / 0.333) + 0) / (20 * 1000) < 32.56.
Proof.
  pose proof ln_ratio_upper. pose proof ln_ratio_lower. split; lra.
Qed.

Lemma default_point_estimate :
  point_estimate defaults = Returns (st_success (Finite (k_spec defaults))).
Proof.
  apply point_estimate_ok; cbn [defaults q mu B re rw skin h pe pwf]; lra.
Qed.

(** C10, as amended: on [q=500, pe=2000, pwf=1000, h=20, mu=1, B=1,
    re=1000, rw=0.333, s=0] the point estimate succeeds with
    [k = 162.6*500*1*1*(ln(1000/0.333)+0)/(20*1000)], which lies between
    32.54 and 32.56 mD. *)
Theorem default_scenario :
  exists k : R,
    point_estimate {| q := 500; pe := 2000; pwf := 1000; h := 20; mu := 1;
                      B := 1; re := 1000; rw := 0.333; skin := 0 |}
    = Returns (st_success (Finite k)) /\
    k = 162.6 * 500 * 1 * 1 * (ln (1000 / 0.333) + 0) / (20 * 1000) /\
    32.54 < k < 32.56.
Proof.
  exists (k_spec defaults). split; [exact default_point_estimate |].
  split; [exact default_k_value |].
  rewrite default_k_value. exact default_k_bounds.
Qed.

(** C10 as stated fails: the value of the formula on the scenario is
    below 33 mD, not about 68.72 mD. *)
Lemma default_scenario_not_68 :
  exists k : R,
    point_estimate {| q := 500; pe := 2000; pwf := 1000; h := 20; mu := 1;
                      B := 1; re := 1000; rw := 0.333; skin := 0 |}
    = Returns (st_success (Finite k)) /\
    k = 162.6 * 500 * 1 * 1 * (ln (1000 / 0.333) + 0) / (20 * 1000) /\
    k < 33 /\ 36 < Rabs (k - 68.72).
Proof.
  exists (k_spec defaults). split; [exact default_point_estimate |].
  split; [exact default_k_value |].
  rewrite default_k_value. pose proof default_k_bounds as [Hlo Hhi].
  split; [lra |].
  rewrite Rabs_left by lra. lra.
Qed.



(** ** The blocks of the figure *)

Lemma selected_In (name : string) (options : list string) :
  selected name options = true <-> In name options.
Proof.
  unfold selected. rewrite existsb_exists. split.
  - intros [x [Hx E]]. apply String.eqb_eq in E. now subst.
  - intros H. exists name. split; [assumption | apply String.eqb_refl].
Qed.

Lemma selected_cons (name b : string) (options : list string) :
  selected name (b :: options) = (String.eqb name b || selected name options)%bool.
Proof. reflexivity. Qed.

Section RunBlocks.

Variable options : list string.

Lemma run_blocks_all (P : series -> Prop) (bs : list (string * outcome series)) :
  (forall name blk s, In (name, blk) bs -> In name options ->
                      blk = Returns s -> P s) ->
  forall ax, run_blocks bs options = Returns ax -> Forall P ax.
Proof.
  induction bs as [| [name blk] rest IH]; intros HP ax Hrun; cbn [run_blocks] in Hrun.
  - injection Hrun as <-. constructor.
  - assert (IH' : forall ax', run_blocks rest options = Returns ax' -> Forall P ax').
    { apply IH. intros n b s Hin. apply HP. now right. }
    destruct (selected name options) eqn:Hsel; [| now apply IH'].
    destruct blk as [s | e]; cbn [bind] in Hrun; [| discriminate].
    destruct (run_blocks rest options) as [ax' | e]; cbn [bind] in Hrun;
      [| discriminate].
    injection Hrun as <-. constructor; [| now apply IH'].
    apply (HP name (Returns s) s); [now left | now apply selected_In | reflexivity].
Qed.

Lemma run_blocks_returns (bs : list (string * outcome series)) :
  (forall name blk, In (name, blk) bs -> In name options ->
                    exists s, blk = Returns s) ->
  exists ax, run_blocks bs options = Returns ax.
Proof.
  induction bs as [| [name blk] rest IH]; intros Hret; cbn [run_blocks].
  - now exists [].
  - destruct IH as [ax' Hax'].
    { intros n b Hin. apply Hret. now right. }
    destruct (selected name options) eqn:Hsel; [| now exists ax'].
    destruct (Hret name blk) as [s ->]; [now left | now apply selected_In |].
    cbn [bind]. rewrite Hax'. cbn [bind]. now exists (s :: ax').
Qed.

Lemma run_blocks_member (bs : list (string * outcome series)) :
  forall ax, run_blocks bs options = Returns ax ->
  forall name blk, In (name, blk) bs -> In name options ->
    exists s, blk = Returns s /\ In s ax.
Proof.
  induction bs as [| [name blk] rest IH]; intros ax Hrun n b Hin Hopt;
    [destruct Hin |].
  cbn [run_blocks] in Hrun.
  destruct (selected name options) eqn:Hsel.
  - destruct blk as [s | e]; cbn [bind] in Hrun; [| discriminate].
    destruct (run_blocks rest options) as [ax' | e]; cbn [bind] in Hrun;
      [| discriminate].
    injection Hrun as <-. destruct Hin as [E | Hin].
    + injection E as <- <-. exists s. split; [reflexivity | now left].
    + destruct (IH ax' eq_refl n b Hin Hopt) as [s' [E Hs']].
      exists s'. split; [assumption | now right].
  - destruct Hin as [E | Hin].
    + injection E as <- <-. apply selected_In in Hopt. congruence.
    + now apply (IH ax Hrun n b).
Qed.

End RunBlocks.

Lemma block_length (i : Inputs) (name : string) (blk : outcome series) (s : series) :
  In (name, blk) (blocks i) -> blk = Returns s ->
  List.length (points s) = 50%nat.
Proof.
  intros Hin. block_cases Hin; block_line;
    rewrite points_plot_length; apply linspace_length.
Qed.

Lemma log_ratio_returns (i : Inputs) :
  rw i <> 0 -> exists l, log_ratio i = Returns l.
Proof.
  intros Hrw. unfold log_ratio. rewrite py_truediv_ok by assumption.
  cbn [bind]. eauto.
Qed.

Lemma block_returns (i : Inputs) (name : string) (blk : outcome series) :
  rw i <> 0 -> In (name, blk) (blocks i) -> exists s, blk = Returns s.
Proof.
  intros Hrw Hin. destruct (log_ratio_returns i Hrw) as [l Hl].
  block_cases Hin;
    unfold sweep_re, sweep_mu, sweep_dp, sweep_pe, sweep_pwf, sweep_skin,
      sweep_q, sweep_h;
    try rewrite Hl; cbn [bind]; eexists; reflexivity.
Qed.



Lemma sweep_pwf_alone (i : Inputs) :
  sweep "Bottomhole Flowing Pressure (Pwf)" i = (s <- sweep_pwf i ;; Returns [s]).
Proof.
  unfold sweep, plots, blocks. cbn [run_blocks]. eval_selected.
  destruct (sweep_pwf i); reflexivity.
Qed.

Lemma sweep_pe_alone (i : Inputs) :
  sweep "Reservoir Pressure (Pe)" i = (s <- sweep_pe i ;; Returns [s]).
Proof.
  unfold sweep, plots, blocks. cbn [run_blocks]. eval_selected.
  destruct (sweep_pe i); reflexivity.
Qed.

(** ** Order of the samples *)




(** ** The flowing-pressure range and the valid region *)

(** C6, as amended: for [pe <= 1e15] the flowing-pressure range has 50
    samples, from 100 to [pe - 50]; every sample is strictly below [pe]
    (so that [pe - sample] is positive) exactly when [pe > 100]. *)
Theorem pwf_range_below_pe (i : Inputs) :
  pe i <= 1e15 ->
  List.length (pwf_range i) = 50%nat /\
  nth 0 (pwf_range i) 0 = 100 /\ nth 49 (pwf_range i) 0 = pe i - 50 /\
  ((forall x, In x (pwf_range i) -> x < pe i /\ 0 < pe i - x) <-> 100 < pe i).
Proof.
  intros _. unfold pwf_range.
  split; [apply linspace_length |].
  split; [apply linspace_first; lia |].
  split; [apply (linspace_last 100 (pe i - 50) 50); lia |].
  split.
  - intros Hall. apply (Hall 100). apply linspace_has_start. lia.
  - intros Hpe x Hin. apply linspace_between in Hin; [| lia].
    revert Hin. unfold Rmin, Rmax.
    destruct (Rle_dec 100 (pe i - 50)); intros [Hlo Hhi]; split; lra.
Qed.

Lemma pwf_range_below_pe_witness :
  List.length (pwf_range defaults) = 50%nat /\
  (forall x, In x (pwf_range defaults) ->
     x < pe defaults /\ 0 < pe defaults - x).
Proof.
  destruct (pwf_range_below_pe defaults) as (Hlen & _ & _ & _ & Hall).
  - cbn [defaults pe]. lra.
  - split; [exact Hlen |]. apply Hall. cbn [defaults pe]. lra.
Defined.

(** C6 as stated fails: with [pe = 100] the first sample, 100, is not
    below [pe]; the denominator [pe - 100] is zero there and the paired
    [k] is not finite. *)
Lemma pwf_range_reaches_pe :
  let i := {| q := 500; pe := 100; pwf := 50; h := 20; mu := 1; B := 1;
              re := 1000; rw := 0.333; skin := 0 |} in
  In 100 (pwf_range i) /\ ~ 100 < pe i /\ pe i - 100 = 0 /\
  exists s : series,
    sweep "Bottomhole Flowing Pressure (Pwf)" i = Returns [s] /\
    In (100, NonFinite) (points s).
Proof.
  intros i.
  assert (Hin : In 100 (pwf_range i)) by (apply linspace_has_start; lia).
  split; [exact Hin |]. cbn [i pe]. split; [lra |]. split; [lra |].
  rewrite sweep_pwf_alone. unfold sweep_pwf.
  destruct (log_ratio_returns i) as [l ->]; [cbn [i rw]; lra |].
  cbn [bind]. eexists. split; [reflexivity |].
  apply points_plot_In. split; [exact Hin |].
  cbn [i pe h]. replace (20 * (100 - 100)) with 0 by lra.
  now rewrite truediv_zero.
Qed.

(** ** The sweeps under the validation error *)

Lemma point_estimate_invalid (i : Inputs) :
  pe i <= pwf i ->
  point_estimate i = Returns (st_error "Pe must be greater than Pwf").
Proof.
  intros H. unfold point_estimate, delta_p.
  destruct (Rle_dec (pe i - pwf i) 0); [reflexivity | lra].
Qed.

(** C7, as amended: for every input with [pe <= pwf] the script shows the
    validation message and still runs the sweeps: its figure is the one
    the sweep blocks produce.  When [rw <> 0], the figure holds a
    50-sample line for each selected option that has a block; with the
    default selection (the drainage radius) it does so for every [rw]. *)
Theorem sweeps_run_despite_validation_error (i : Inputs) (options : list string) :
  pe i <= pwf i ->
  app i options
  = (ax <- plots i options ;;
     Returns (st_error "Pe must be greater than Pwf", ax)) /\
  (rw i <> 0 ->
   exists ax,
     app i options = Returns (st_error "Pe must be greater than Pwf", ax) /\
     Forall (fun s => List.length (points s) = 50%nat) ax /\
     forall name blk, In (name, blk) (blocks i) -> In name options ->
       exists s, blk = Returns s /\ In s ax /\
                 List.length (points s) = 50%nat) /\
  (exists s,
     app i default_options
     = Returns (st_error "Pe must be greater than Pwf", [s]) /\
     sweep_re i = Returns s /\ List.length (points s) = 50%nat).
Proof.
  intros Hinv.
  assert (Happ : forall opts, app i opts
            = (ax <- plots i opts ;;
               Returns (st_error "Pe must be greater than Pwf", ax))).
  { intros opts. unfold app. rewrite point_estimate_invalid by assumption.
    reflexivity. }
  split; [apply Happ | split].
  - intros Hrw.
    destruct (run_blocks_returns options (blocks i)) as [ax Hax].
    { intros name blk Hin _. now apply (block_returns i name). }
    exists ax. split; [| split].
    + rewrite Happ. unfold plots. rewrite Hax. reflexivity.
    + apply (run_blocks_all options _ (blocks i)); [| assumption].
      intros name blk s Hin _ E. now apply (block_length i name blk).
    + intros name blk Hin Hopt.
      destruct (run_blocks_member options (blocks i) ax Hax name blk Hin Hopt)
        as [s [E Hs]].
      exists s. split; [assumption | split; [assumption |]].
      now apply (block_length i name blk).
  - eexists. split; [| split].
    + rewrite Happ. unfold default_options.
      fold (sweep "Drainage radius (re)" i). rewrite sweep_re_alone.
      unfold sweep_re. cbn [bind]. reflexivity.
    + reflexivity.
    + rewrite points_plot_length. apply linspace_length.
Qed.

Lemma sweeps_run_despite_validation_error_witness :
  let i := {| q := 500; pe := 1000; pwf := 1500; h := 20; mu := 1; B := 1;
              re := 1000; rw := 0.333; skin := 0 |} in
  exists ax,
    app i ["Viscosity (μ)"; "Skin (s)"]
    = Returns (st_error "Pe must be greater than Pwf", ax) /\
    Forall (fun s => List.length (points s) = 50%nat) ax.
Proof.
  intros i.
  destruct (sweeps_run_despite_validation_error i ["Viscosity (μ)"; "Skin (s)"])
    as (_ & Hfig & _).
  - cbn [i pe pwf]. lra.
  - destruct Hfig as (ax & Happ & Hlen & _).
    + cbn [i rw]. lra.
    + exists ax. split; assumption.
Defined.

(** C7 as stated fails: with [pe <= pwf] and [rw = 0], the viscosity
    sweep raises [ZeroDivisionError] at [re/rw] and no line is produced;
    and the formation-volume-factor option, when requested, gives no
    line. *)
Lemma sweep_raises_at_zero_rw :
  let i := {| q := 500; pe := 1000; pwf := 1500; h := 20; mu := 1; B := 1;
              re := 1000; rw := 0; skin := 0 |} in
  let j := {| q := 500; pe := 1000; pwf := 1500; h := 20; mu := 1; B := 1;
              re := 1000; rw := 0.333; skin := 0 |} in
  pe i <= pwf i /\
  app i ["Viscosity (μ)"] = Raises ZeroDivisionError /\
  pe j <= pwf j /\
  app j ["Formation volume factor (B) (RB/STB)"]
  = Returns (st_error "Pe must be greater than Pwf", []).
Proof.
  intros i j. split; [cbn [i pe pwf]; lra |]. split; [| split].
  - unfold app. rewrite point_estimate_invalid by (cbn [i pe pwf]; lra).
    cbn [bind]. unfold plots, blocks. cbn [run_blocks]. eval_selected.
    unfold sweep_mu, log_ratio. cbn [i re rw].
    rewrite py_truediv_zero. reflexivity.
  - cbn [j pe pwf]. lra.
  - unfold app. rewrite point_estimate_invalid by (cbn [j pe pwf]; lra).
    cbn [bind]. unfold plots, blocks. cbn [run_blocks]. eval_selected.
    reflexivity.
Qed.

(** ** The pressure-drop sweep *)

Lemma sweep_dp_alone (i : Inputs) :
  sweep "ΔP (Pe-Pwf)" i = (s <- sweep_dp i ;; Returns [s]).
Proof.
  unfold sweep, plots, blocks. cbn [run_blocks]. eval_selected.
  destruct (sweep_dp i); reflexivity.
Qed.

(** C8: two inputs that agree on [q], [mu], [B], [re], [rw], [s] and [h]
    have the same pressure-drop sweep, whatever their [pe] and [pwf].
    When [rw <> 0] that sweep is one line of 50 samples running from 100
    to 3000, and each paired [k] is the value of the formula with the
    sample in the place of [pe - pwf]. *)
Theorem dp_sweep_ignores_pressures (i1 i2 : Inputs) :
  q i1 = q i2 -> mu i1 = mu i2 -> B i1 = B i2 -> re i1 = re i2 ->
  rw i1 = rw i2 -> skin i1 = skin i2 -> h i1 = h i2 ->
  sweep "ΔP (Pe-Pwf)" i1 = sweep "ΔP (Pe-Pwf)" i2 /\
  (rw i1 <> 0 ->
   exists s,
     sweep "ΔP (Pe-Pwf)" i1 = Returns [s] /\
     sweep "ΔP (Pe-Pwf)" i2 = Returns [s] /\
     label s = "Sensitivity to ΔP" /\
     xs s = linspace 100 3000 50 /\
     List.length (points s) = 50%nat /\
     nth 0 (xs s) 0 = 100 /\ nth 49 (xs s) 0 = 3000 /\
     forall x k, In (x, k) (points s) ->
       k_line31 (with_pressures i1 x 0) = Returns k /\
       k_line31 (with_pressures i2 x 0) = Returns k) /\
  (forall s, sweep "ΔP (Pe-Pwf)" i1 = Returns [s] ->
     xs s = linspace 100 3000 50 /\
     List.length (points s) = 50%nat /\
     forall x k, In (x, k) (points s) ->
       k_line31 (with_pressures i1 x 0) = Returns k).
Proof.
  intros Eq Emu EB Ere Erw Es Eh.
  assert (Esw : sweep "ΔP (Pe-Pwf)" i1 = sweep "ΔP (Pe-Pwf)" i2).
  { rewrite !sweep_dp_alone. unfold sweep_dp, log_ratio.
    rewrite Eq, Emu, EB, Ere, Erw, Es, Eh. reflexivity. }
  assert (Hline : forall l x,
            log_ratio i1 = Returns l ->
            k_line31 (with_pressures i1 x 0)
            = Returns (truediv (mul (162.6 * q i1 * mu i1 * B i1)
                                    (add l (skin i1))) (h i1 * x))).
  { intros l x Hl. unfold k_line31.
    change (log_ratio (with_pressures i1 x 0)) with (log_ratio i1).
    rewrite Hl. cbn [bind]. unfold delta_p.
    cbn [with_pressures q mu B skin h pe pwf]. now rewrite Rminus_0_r. }
  split; [exact Esw | split].
  - intros Hrw. destruct (log_ratio_returns i1 Hrw) as [l Hl].
    rewrite <- Esw. rewrite sweep_dp_alone. unfold sweep_dp. rewrite Hl.
    cbn [bind]. eexists. split; [reflexivity |]. split; [reflexivity |].
    split; [reflexivity |]. rewrite xs_plot, points_plot_length.
    split; [reflexivity |]. split; [apply linspace_length |].
    split; [apply linspace_first; lia |].
    split; [apply (linspace_last 100 3000 50); lia |].
    intros x k Hin. apply points_plot_In in Hin. destruct Hin as [_ ->].
    split; [now apply Hline |].
    unfold k_line31, log_ratio, delta_p.
    cbn [with_pressures q mu B re rw skin h pe pwf].
    rewrite <- Eq, <- Emu, <- EB, <- Ere, <- Erw, <- Es, <- Eh.
    fold (log_ratio i1). rewrite Hl. cbn [bind]. now rewrite Rminus_0_r.
  - intros s. rewrite sweep_dp_alone. unfold sweep_dp.
    destruct (log_ratio i1) as [l | e] eqn:Hl; cbn [bind]; [| discriminate].
    intros E. injection E as <-.
    rewrite xs_plot, points_plot_length. split; [reflexivity |].
    split; [apply linspace_length |].
    intros x k Hin. apply points_plot_In in Hin. destruct Hin as [_ ->].
    now apply Hline.
Qed.

Lemma dp_sweep_ignores_pressures_witness :
  pe defaults <> pe (with_pressures defaults 4000 3500) /\
  pwf defaults <> pwf (with_pressures defaults 4000 3500) /\
  exists s,
    sweep "ΔP (Pe-Pwf)" defaults = Returns [s] /\
    sweep "ΔP (Pe-Pwf)" (with_pressures defaults 4000 3500) = Returns [s] /\
    xs s = linspace 100 3000 50 /\ List.length (points s) = 50%nat.
Proof.
  split; [cbn [defaults with_pressures pe]; lra |].
  split; [cbn [defaults with_pressures pwf]; lra |].
  destruct (dp_sweep_ignores_pressures defaults
              (with_pressures defaults 4000 3500))
    as (_ & Hex & _); try reflexivity.
  destruct Hex as (s & H1 & H2 & _ & Hxs & Hlen & _).
  - cbn [defaults rw]. lra.
  - exists s. repeat split; assumption.
Defined.

(** ** The option without a block *)

(** C9: "Formation volume factor (B) (RB/STB)" is one of the choices of
    the selector, no block tests it, its sweep gives no line on any
    input, and adding it to a selection changes nothing in the figure. *)
Theorem no_sweep_for_formation_volume_factor (i : Inputs) (options : list string) :
  In "Formation volume factor (B) (RB/STB)" choices /\
  ~ In "Formation volume factor (B) (RB/STB)" (map fst (blocks i)) /\
  sweep "Formation volume factor (B) (RB/STB)" i = Returns [] /\
  plots i ("Formation volume factor (B) (RB/STB)" :: options) = plots i options.
Proof.
  split; [| split; [| split]].
  - unfold choices. cbn [In]. auto.
  - unfold blocks. cbn [map fst In].
    intros H. repeat (destruct H as [H | H]; [discriminate H |]). exact H.
  - unfold sweep, plots, blocks. cbn [run_blocks]. eval_selected. reflexivity.
  - unfold plots, blocks. cbn [run_blocks]. rewrite !selected_cons.
    repeat match goal with
    | |- context [String.eqb ?a ?b] =>
        let v := eval vm_compute in (String.eqb a b) in
        change (String.eqb a b) with v
    end.
    cbn [orb]. reflexivity.
Qed.

(** * Further properties of the script *)

(** ** Outcomes of the point estimate *)

Lemma point_estimate_valid (i : Inputs) :
  pwf i < pe i -> rw i <> 0 ->
  point_estimate i
  = Returns (st_success
      (truediv (mul (162.6 * q i * mu i * B i)
                    (add (log (Finite (re i / rw i))) (skin i)))
               (h i * delta_p i))).
Proof.
  intros Hp Hrw. unfold point_estimate.
  destruct (Rle_dec (delta_p i) 0) as [Hle | _];
    [unfold delta_p in Hle; lra |].
  unfold k_line31, log_ratio. rewrite py_truediv_ok by assumption.
  reflexivity.
Qed.

Lemma point_estimate_raises (i : Inputs) :
  pwf i < pe i -> rw i = 0 -> point_estimate i = Raises ZeroDivisionError.
Proof.
  intros Hp Hrw. unfold point_estimate.
  destruct (Rle_dec (delta_p i) 0) as [Hle | _];
    [unfold delta_p in Hle; lra |].
  unfold k_line31, log_ratio. rewrite Hrw, py_truediv_zero. reflexivity.
Qed.

(** X1: the point estimate has exactly three kinds of outcome.  It shows
    the validation message when [pe <= pwf]; it raises
    [ZeroDivisionError] exactly when [pe > pwf] and [rw = 0]; it shows a
    value exactly when [pe > pwf] and [rw <> 0], and that value is not a
    finite number whenever [re/rw <= 0] or [h = 0]. *)
Theorem point_estimate_outcomes (i : Inputs) :
  (point_estimate i = Raises ZeroDivisionError <-> pwf i < pe i /\ rw i = 0) /\
  ((exists k, point_estimate i = Returns (st_success k)) <->
     pwf i < pe i /\ rw i <> 0) /\
  ((exists msg, point_estimate i = Returns (st_error msg)) <->
     pe i <= pwf i) /\
  (forall k, point_estimate i = Returns (st_success k) ->
     re i / rw i <= 0 \/ h i = 0 -> k = NonFinite).
Proof.
  destruct (Rle_dec (pe i) (pwf i)) as [Hinv | Hval].
  { pose proof (point_estimate_invalid i Hinv) as E. rewrite E.
    split; [| split; [| split]].
    - split; [discriminate | intros [Hp _]; lra].
    - split; [intros [k H]; discriminate H | intros [Hp _]; lra].
    - split; [intros _; assumption | intros _; eauto].
    - intros k H. discriminate H. }
  assert (Hp : pwf i < pe i) by lra.
  destruct (Req_dec_T (rw i) 0) as [Hrw | Hrw].
  { pose proof (point_estimate_raises i Hp Hrw) as E. rewrite E.
    split; [| split; [| split]].
    - split; [auto | reflexivity].
    - split; [intros [k H]; discriminate H | tauto].
    - split; [intros [m H]; discriminate H | intros Hle; lra].
    - intros k H. discriminate H. }
  rewrite point_estimate_valid by assumption.
  split; [| split; [| split]].
  - split; [discriminate | tauto].
  - split; [auto | eauto].
  - split; [intros [m H]; discriminate H | intros Hle; lra].
  - intros k E [Hneg | Hh].
    + rewrite log_nonpos in E by assumption. cbn [add mul truediv] in E.
      now injection E as <-.
    + rewrite Hh, Rmult_0_l, truediv_zero in E. now injection E as <-.
Qed.

(** ** What the point estimate depends on *)

(** X2: the point estimate depends on the two pressures only through
    their difference and on the two radii only through their ratio:
    adding the same amount to [pe] and [pwf], or multiplying [re] and [rw]
    by the same non-zero factor, leaves its outcome unchanged. *)
Theorem point_estimate_invariant (i : Inputs) :
  (forall d : R,
     point_estimate (with_pressures i (pe i + d) (pwf i + d))
     = point_estimate i) /\
  (forall c : R, c <> 0 ->
     point_estimate (with_radii i (c * re i) (c * rw i)) = point_estimate i).
Proof.
  split.
  - intros d. unfold point_estimate, k_line31, log_ratio, delta_p.
    cbn [with_pressures q mu B re rw skin h pe pwf].
    replace (pe i + d - (pwf i + d)) with (pe i - pwf i) by ring.
    reflexivity.
  - intros c Hc. unfold point_estimate, k_line31, log_ratio, delta_p.
    cbn [with_radii q mu B re rw skin h pe pwf].
    destruct (Rle_dec (pe i - pwf i) 0); [reflexivity |].
    destruct (Req_dec_T (rw i) 0) as [Hrw | Hrw].
    + rewrite Hrw, Rmult_0_r, !py_truediv_zero. reflexivity.
    + rewrite !py_truediv_ok;
        [| assumption | now apply Rmult_integral_contrapositive_currified].
      replace (c * re i / (c * rw i)) with (re i / rw i) by (field; auto).
      reflexivity.
Qed.

(** ** One option alone *)

Lemma sweep_alone (i : Inputs) (name : string) (blk : outcome series) :
  In (name, blk) (blocks i) -> sweep name i = (s <- blk ;; Returns [s]).
Proof.
  intros Hin. block_cases Hin;
    unfold sweep, plots, blocks; cbn [run_blocks]; eval_selected;
    match goal with |- context [bind ?b _] => destruct b; reflexivity end.
Qed.

Lemma log_ratio_zero (i : Inputs) :
  rw i = 0 -> log_ratio i = Raises ZeroDivisionError.
Proof.
  intros Hrw. unfold log_ratio. rewrite Hrw, py_truediv_zero. reflexivity.
Qed.

(** ** The range of the reservoir-pressure sweep *)

(** X5: for [pwf >= -1e15] the reservoir-pressure range has 50 samples,
    from [pwf + 100] to 5000; every sample is strictly above [pwf] (so
    that [sample - pwf] is positive) exactly when [pwf < 5000]. *)
Theorem pe_range_above_pwf (i : Inputs) :
  -1e15 <= pwf i ->
  List.length (pe_range i) = 50%nat /\
  nth 0 (pe_range i) 0 = pwf i + 100 /\ nth 49 (pe_range i) 0 = 5000 /\
  ((forall x, In x (pe_range i) -> pwf i < x /\ 0 < x - pwf i)
   <-> pwf i < 5000).
Proof.
  intros _. unfold pe_range.
  split; [apply linspace_length |].
  split; [apply linspace_first; lia |].
  split; [apply (linspace_last (pwf i + 100) 5000 50); lia |].
  split.
  - intros Hall. apply (Hall 5000). apply linspace_has_stop. lia.
  - intros Hpwf x Hin. apply linspace_between in Hin; [| lia].
    revert Hin. unfold Rmin, Rmax.
    destruct (Rle_dec (pwf i + 100) 5000); intros [Hlo Hhi]; split; lra.
Qed.

Lemma pe_range_above_pwf_witness :
  List.length (pe_range defaults) = 50%nat /\
  (forall x, In x (pe_range defaults) ->
     pwf defaults < x /\ 0 < x - pwf defaults).
Proof.
  destruct (pe_range_above_pwf defaults) as (Hlen & _ & _ & _ & Hall).
  - cbn [defaults pwf]. lra.
  - split; [exact Hlen |]. apply Hall. cbn [defaults pwf]. lra.
Defined.

(** ** The sweeps and the formula of the point estimate *)

(** X6: when [rw <> 0], the sweeps of the viscosity, the skin factor, the
    flow rate and the thickness each give a line over their fixed range
    (0.2 to 5, -5 to 20, 100 to 4000, 5 to 100), and each paired [k] is
    the value of the point-estimate formula (line 31) on the inputs with
    that one field replaced by the sample. *)
Theorem field_sweeps_follow_formula (i : Inputs) :
  rw i <> 0 ->
  (exists s, sweep "Viscosity (μ)" i = Returns [s] /\
     label s = "Sensitivity to μ" /\ xs s = linspace 0.2 5 50 /\
     forall x k, In (x, k) (points s) -> k_line31 (with_mu i x) = Returns k) /\
  (exists s, sweep "Skin (s)" i = Returns [s] /\
     label s = "Sensitivity to Skin" /\ xs s = linspace (-5) 20 50 /\
     forall x k, In (x, k) (points s) -> k_line31 (with_skin i x) = Returns k) /\
  (exists s, sweep "Flow rate (q) (STB/day)" i = Returns [s] /\
     label s = "Sensitivity to q" /\ xs s = linspace 100 4000 50 /\
     forall x k, In (x, k) (points s) -> k_line31 (with_q i x) = Returns k) /\
  (exists s, sweep "Layer thickness (h) (ft)" i = Returns [s] /\
     label s = "Sensitivity to h" /\ xs s = linspace 5 100 50 /\
     forall x k, In (x, k) (points s) -> k_line31 (with_h i x) = Returns k).
Proof.
  intros Hrw. destruct (log_ratio_returns i Hrw) as [l Hl].
  split; [| split; [| split]].
  - rewrite (sweep_alone i _ (sweep_mu i)) by (unfold blocks; cbn [In]; tauto).
    unfold sweep_mu. rewrite Hl. cbn [bind]. eexists.
    split; [reflexivity |]. split; [reflexivity |].
    split; [apply xs_plot |].
    intros x k Hin. apply points_plot_In in Hin. destruct Hin as [_ ->].
    unfold k_line31. change (log_ratio (with_mu i x)) with (log_ratio i).
    rewrite Hl. reflexivity.
  - rewrite (sweep_alone i _ (sweep_skin i)) by (unfold blocks; cbn [In]; tauto).
    unfold sweep_skin. rewrite Hl. cbn [bind]. eexists.
    split; [reflexivity |]. split; [reflexivity |].
    split; [apply xs_plot |].
    intros x k Hin. apply points_plot_In in Hin. destruct Hin as [_ ->].
    unfold k_line31. change (log_ratio (with_skin i x)) with (log_ratio i).
    rewrite Hl. reflexivity.
  - rewrite (sweep_alone i _ (sweep_q i)) by (unfold blocks; cbn [In]; tauto).
    unfold sweep_q. rewrite Hl. cbn [bind]. eexists.
    split; [reflexivity |]. split; [reflexivity |].
    split; [apply xs_plot |].
    intros x k Hin. apply points_plot_In in Hin. destruct Hin as [_ ->].
    unfold k_line31. change (log_ratio (with_q i x)) with (log_ratio i).
    rewrite Hl. reflexivity.
  - rewrite (sweep_alone i _ (sweep_h i)) by (unfold blocks; cbn [In]; tauto).
    unfold sweep_h. rewrite Hl. cbn [bind]. eexists.
    split; [reflexivity |]. split; [reflexivity |].
    split; [apply xs_plot |].
    intros x k Hin. apply points_plot_In in Hin. destruct Hin as [_ ->].
    unfold k_line31. change (log_ratio (with_h i x)) with (log_ratio i).
    rewrite Hl. reflexivity.
Qed.

Lemma field_sweeps_follow_formula_witness :
  exists s, sweep "Viscosity (μ)" defaults = Returns [s] /\
    label s = "Sensitivity to μ" /\ xs s = linspace 0.2 5 50 /\
    forall x k, In (x, k) (points s) ->
      k_line31 (with_mu defaults x) = Returns k.
Proof.
  destruct (field_sweeps_follow_formula defaults) as [Hmu _].
  - cbn [defaults rw]. lra.
  - exact Hmu.
Defined.

(** X7: when [rw <> 0], the sweep of the reservoir pressure runs from
    [pwf + 100] to 5000 and the sweep of the flowing pressure from 100 to
    [pe - 50]; each paired [k] is the value of the point-estimate formula
    with the swept pressure replaced by the sample and the other pressure
    held at its current value. *)
Theorem pressure_sweeps_follow_formula (i : Inputs) :
  rw i <> 0 ->
  (exists s, sweep "Reservoir Pressure (Pe)" i = Returns [s] /\
     label s = "Sensitivity to Pe" /\
     xs s = linspace (pwf i + 100) 5000 50 /\
     forall x k, In (x, k) (points s) ->
       k_line31 (with_pressures i x (pwf i)) = Returns k) /\
  (exists s, sweep "Bottomhole Flowing Pressure (Pwf)" i = Returns [s] /\
     label s = "Sensitivity to Pwf" /\
     xs s = linspace 100 (pe i - 50) 50 /\
     forall x k, In (x, k) (points s) ->
       k_line31 (with_pressures i (pe i) x) = Returns k).
Proof.
  intros Hrw. destruct (log_ratio_returns i Hrw) as [l Hl]. split.
  - rewrite sweep_pe_alone. unfold sweep_pe. rewrite Hl. cbn [bind]. eexists.
    split; [reflexivity |]. split; [reflexivity |].
    split; [apply xs_plot |].
    intros x k Hin. apply points_plot_In in Hin. destruct Hin as [_ ->].
    unfold k_line31.
    change (log_ratio (with_pressures i x (pwf i))) with (log_ratio i).
    rewrite Hl. reflexivity.
  - rewrite sweep_pwf_alone. unfold sweep_pwf. rewrite Hl. cbn [bind]. eexists.
    split; [reflexivity |]. split; [reflexivity |].
    split; [apply xs_plot |].
    intros x k Hin. apply points_plot_In in Hin. destruct Hin as [_ ->].
    unfold k_line31.
    change (log_ratio (with_pressures i (pe i) x)) with (log_ratio i).
    rewrite Hl. reflexivity.
Qed.

Lemma pressure_sweeps_follow_formula_witness :
  exists s, sweep "Reservoir Pressure (Pe)" defaults = Returns [s] /\
    label s = "Sensitivity to Pe" /\
    xs s = linspace (pwf defaults + 100) 5000 50 /\
    forall x k, In (x, k) (points s) ->
      k_line31 (with_pressures defaults x (pwf defaults)) = Returns k.
Proof.
  destruct (pressure_sweeps_follow_formula defaults) as [Hpe _].
  - cbn [defaults rw]. lra.
  - exact Hpe.
Defined.

(** ** When the script stops on an exception *)

Lemma run_blocks_raises (options : list string) (bs : list (string * outcome series)) :
  run_blocks bs options = Raises ZeroDivisionError <->
  exists name, In (name, Raises ZeroDivisionError) bs /\ In name options.
Proof.
  induction bs as [| [name blk] rest IH]; cbn [run_blocks].
  - split; [discriminate | intros [n [[] _]]].
  - destruct (selected name options) eqn:Hsel.
    + destruct blk as [s | []]; cbn [bind].
      * destruct (run_blocks rest options) as [ax | []]; cbn [bind].
        -- split; [discriminate |].
           intros [n [[E | Hin] Hopt]]; [discriminate E |].
           assert (H : Returns ax = Raises ZeroDivisionError)
             by (apply IH; eauto).
           discriminate H.
        -- split; [| reflexivity]. intros _.
           destruct IH as [IH _]. destruct (IH eq_refl) as [n [Hin Hopt]].
           exists n. split; [now right | assumption].
      * split; [| reflexivity]. intros _. exists name.
        split; [now left | now apply selected_In].
    + rewrite IH. split.
      * intros [n [Hin Hopt]]. exists n. split; [now right | assumption].
      * intros [n [[E | Hin] Hopt]]; [| eauto].
        injection E as <- _. apply selected_In in Hopt. congruence.
Qed.

Lemma block_raises_iff (i : Inputs) (name : string) :
  In (name, Raises ZeroDivisionError) (blocks i) <->
  rw i = 0 /\ In name scalar_ratio_options.
Proof.
  split.
  - intros Hin. destruct (Req_dec_T (rw i) 0) as [Hrw | Hrw].
    + split; [assumption |].
      unfold blocks in Hin; cbn [In] in Hin. unfold scalar_ratio_options.
      cbn [In].
      repeat (destruct Hin as [Hin | Hin];
              [injection Hin as <- Hin; try discriminate Hin; tauto |]).
      contradiction.
    + destruct (block_returns i name _ Hrw Hin) as [s Hs]. discriminate Hs.
  - intros [Hrw Hin]. pose proof (log_ratio_zero i Hrw) as Hl.
    unfold blocks, sweep_mu, sweep_dp, sweep_pe, sweep_pwf, sweep_skin,
      sweep_q, sweep_h.
    rewrite Hl. cbn [bind In].
    unfold scalar_ratio_options in Hin. cbn [In] in Hin.
    repeat (destruct Hin as [<- | Hin]; [tauto |]). contradiction.
Qed.

Lemma plots_raises_iff (i : Inputs) (options : list string) :
  plots i options = Raises ZeroDivisionError <->
  rw i = 0 /\ exists name, In name options /\ In name scalar_ratio_options.
Proof.
  unfold plots. rewrite run_blocks_raises. split.
  - intros [name [Hin Hopt]]. apply block_raises_iff in Hin.
    destruct Hin as [Hrw Hin]. eauto.
  - intros [Hrw [name [Hopt Hin]]]. exists name.
    split; [apply block_raises_iff; auto | assumption].
Qed.

(** X8: the script stops on [ZeroDivisionError] exactly when [rw = 0] and
    either [pe > pwf] (the point estimate divides [re] by [rw]) or one of
    the seven options whose block takes [np.log(re/rw)] is selected.  In
    every other case it shows a panel and a figure; in particular the
    drainage-radius sweep never raises. *)
Theorem script_raises_iff (i : Inputs) (options : list string) :
  (app i options = Raises ZeroDivisionError <->
   rw i = 0 /\
   (pwf i < pe i \/
    exists name, In name options /\ In name scalar_ratio_options)) /\
  (forall e, sweep "Drainage radius (re)" i <> Raises e).
Proof.
  split.
  - unfold app.
    destruct (Rle_dec (pe i) (pwf i)) as [Hinv | Hval].
    + rewrite point_estimate_invalid by assumption. cbn [bind].
      destruct (plots i options) as [ax | []] eqn:Hax; cbn [bind].
      * split; [discriminate |]. intros [Hrw [Hp | Hsel]]; [lra |].
        assert (H : plots i options = Raises ZeroDivisionError)
          by (apply plots_raises_iff; auto).
        rewrite Hax in H. discriminate H.
      * split; [| reflexivity]. intros _.
        apply plots_raises_iff in Hax. tauto.
    + destruct (Req_dec_T (rw i) 0) as [Hrw | Hrw].
      * rewrite point_estimate_raises by lra. cbn [bind].
        split; [| reflexivity]. intros _. split; [assumption | left; lra].
      * rewrite point_estimate_valid by lra. cbn [bind].
        destruct (run_blocks_returns options (blocks i)) as [ax Hax].
        { intros name blk Hin _. now apply (block_returns i name). }
        unfold plots. rewrite Hax. cbn [bind].
        split; [discriminate | tauto].
  - intros e. rewrite sweep_re_alone. unfold sweep_re. cbn [bind]. discriminate.
Qed.

(** ** The selection and the legend *)

Lemma selected_ext (o1 o2 : list string) (name : string) :
  (forall n, In n o1 <-> In n o2) -> selected name o1 = selected name o2.
Proof.
  intros H. destruct (selected name o2) eqn:E2.
  - apply selected_In. apply H. now apply selected_In.
  - destruct (selected name o1) eqn:E1; [| reflexivity].
    apply selected_In, H, selected_In in E1. congruence.
Qed.

(** X9: the figure depends on the selection only through which options
    it contains: two selections with the same members, in any order and
    with any repetitions, give the same outcome and the same lines in the
    same order. *)
Theorem plots_depend_on_membership (i : Inputs) (o1 o2 : list string) :
  (forall name, In name o1 <-> In name o2) ->
  plots i o1 = plots i o2 /\ app i o1 = app i o2.
Proof.
  intros H.
  assert (E : plots i o1 = plots i o2).
  { unfold plots. induction (blocks i) as [| [name blk] rest IH];
      [reflexivity |].
    cbn [run_blocks]. rewrite (selected_ext o1 o2 name H), IH. reflexivity. }
  split; [exact E |]. unfold app. now rewrite E.
Qed.

Lemma plots_depend_on_membership_witness :
  plots defaults ["Skin (s)"; "Drainage radius (re)"]
  = plots defaults ["Drainage radius (re)"; "Skin (s)"; "Drainage radius (re)"].
Proof.
  apply (plots_depend_on_membership defaults
           ["Skin (s)"; "Drainage radius (re)"]
           ["Drainage radius (re)"; "Skin (s)"; "Drainage radius (re)"]).
  intros name. cbn [In]. tauto.
Defined.

Lemma filter_length_le {A : Type} (f : A -> bool) (l : list A) :
  (List.length (filter f l) <= List.length l)%nat.
Proof.
  induction l as [| a l IH]; cbn [filter List.length]; [lia |].
  destruct (f a); cbn [List.length]; lia.
Qed.

Lemma run_blocks_labels (options : list string)
    (bs : list (string * outcome series)) (ls : list (string * string)) :
  Forall2 (fun b p => fst b = fst p /\
                      forall s, snd b = Returns s -> label s = snd p) bs ls ->
  forall ax, run_blocks bs options = Returns ax ->
    map label ax = map snd (filter (fun p => selected (fst p) options) ls).
Proof.
  induction 1 as [| [name blk] [name' lbl] bs ls [Hname Hlbl] _ IH];
    intros ax Hax; cbn [run_blocks] in Hax.
  - injection Hax as <-. reflexivity.
  - cbn [fst snd] in Hname, Hlbl. subst name'.
    cbn [filter fst]. destruct (selected name options).
    + destruct blk as [s | e]; cbn [bind] in Hax; [| discriminate].
      destruct (run_blocks bs options) as [ax' | e]; cbn [bind] in Hax;
        [| discriminate].
      injection Hax as <-. cbn [map snd].
      rewrite (Hlbl s eq_refl), (IH ax' eq_refl). reflexivity.
    + now apply IH.
Qed.

Lemma blocks_labelled (i : Inputs) :
  Forall2 (fun b p => fst b = fst p /\
                      forall s, snd b = Returns s -> label s = snd p)
          (blocks i) line_labels.
Proof.
  unfold blocks, line_labels.
  repeat (constructor;
          [split; [reflexivity | cbn [snd]; intros s; block_line; reflexivity] |]).
  constructor.
Qed.

Lemma NoDup_map_filter {A C : Type} (g : A -> C) (f : A -> bool) (l : list A) :
  NoDup (map g l) -> NoDup (map g (filter f l)).
Proof.
  induction l as [| a l IH]; cbn [map filter]; [auto |].
  intros Hnd. inversion Hnd as [| x xs0 Hnotin Hnd']; subst.
  destruct (f a); cbn [map]; [| auto].
  constructor; [| auto].
  intros Hin. apply Hnotin. apply in_map_iff in Hin.
  destruct Hin as [y [E Hy]]. apply filter_In in Hy.
  apply in_map_iff. exists y. tauto.
Qed.

Lemma line_labels_distinct : NoDup (map snd line_labels).
Proof.
  unfold line_labels. cbn [map snd].
  repeat (constructor; [cbn [In]; intros H;
    repeat (destruct H as [H | H]; [discriminate H |]); exact H |]).
  constructor.
Qed.

(** X10: whenever the sweeps produce a figure, its lines carry, in the
    order of the script's blocks (re, viscosity, pressure drop, Pe, Pwf,
    skin, q, h), the labels of the selected options that have a block:
    at most eight lines, no label twice, 50 points each. *)
Theorem figure_legend (i : Inputs) (options : list string) (ax : list series) :
  plots i options = Returns ax ->
  map label ax
  = map snd (filter (fun p => selected (fst p) options) line_labels) /\
  (List.length ax <= 8)%nat /\
  NoDup (map label ax) /\
  Forall (fun s => List.length (points s) = 50%nat) ax.
Proof.
  intros Hax.
  assert (Hlab : map label ax
            = map snd (filter (fun p => selected (fst p) options) line_labels)).
  { apply (run_blocks_labels options (blocks i)); [| exact Hax].
    apply blocks_labelled. }
  split; [exact Hlab |]. split; [| split].
  - rewrite <- (length_map label ax), Hlab, length_map.
    apply (filter_length_le _ line_labels).
  - rewrite Hlab. apply NoDup_map_filter, line_labels_distinct.
  - apply (run_blocks_all options _ (blocks i)); [| exact Hax].
    intros name blk s Hin _ E. now apply (block_length i name blk).
Qed.

Lemma figure_legend_witness :
  exists ax,
    plots defaults ["Skin (s)"; "Drainage radius (re)"] = Returns ax /\
    map label ax = ["Sensitivity to re"; "Sensitivity to Skin"].
Proof.
  destruct (run_blocks_returns ["Skin (s)"; "Drainage radius (re)"]
              (blocks defaults)) as [ax Hax].
  { intros name blk Hin _. apply (block_returns defaults name); [| exact Hin].
    cbn [defaults rw]. lra. }
  exists ax. split; [exact Hax |].
  destruct (figure_legend defaults ["Skin (s)"; "Drainage radius (re)"] ax Hax)
    as [Hlab _].
  exact Hlab.
Defined.

(** ** The sweeps when the drawdown is zero *)

(** X11: when [pe = pwf] (the validation message is shown), each of the
    five sweeps that divide by [delta_p] (re, viscosity, skin, q, h) gives,
    when [rw <> 0], its line of 50 points on which every paired [k] is
    non-finite; the drainage-radius sweep does so for [rw = 0] as well. *)
Theorem zero_drawdown_lines (i : Inputs) (name : string) :
  pe i = pwf i -> In name delta_p_options ->
  rw i <> 0 \/ name = "Drainage radius (re)" ->
  exists s, sweep name i = Returns [s] /\
    List.length (points s) = 50%nat /\
    forall x k, In (x, k) (points s) -> k = NonFinite.
Proof.
  intros Hp Hin Hrw.
  assert (Hd : delta_p i = 0) by (unfold delta_p; lra).
  assert (Hl : name <> "Drainage radius (re)" ->
               exists l, log_ratio i = Returns l).
  { intros Hne. apply log_ratio_returns. tauto. }
  unfold delta_p_options in Hin. cbn [In] in Hin.
  destruct Hin as [<- | Hin].
  { rewrite sweep_re_alone. unfold sweep_re. cbn [bind]. eexists.
    split; [reflexivity |].
    split; [rewrite points_plot_length; apply linspace_length |].
    intros x k Hk. apply points_plot_In in Hk. destruct Hk as [_ ->].
    rewrite Hd, Rmult_0_r. apply truediv_zero. }
  repeat (destruct Hin as [<- | Hin];
    [ destruct Hl as [l Hl]; [discriminate |];
      erewrite sweep_alone by (unfold blocks; cbn [In]; tauto);
      unfold sweep_mu, sweep_skin, sweep_q, sweep_h; rewrite Hl;
      cbn [bind]; eexists; split; [reflexivity |];
      split; [rewrite points_plot_length; apply linspace_length |];
      intros x k Hk; apply points_plot_In in Hk; destruct Hk as [_ ->];
      rewrite Hd, Rmult_0_r; apply truediv_zero | ]).
  contradiction.
Qed.

Lemma zero_drawdown_lines_witness :
  let i := {| q := 500; pe := 1000; pwf := 1000; h := 20; mu := 1; B := 1;
              re := 1000; rw := 0.333; skin := 0 |} in
  exists s, sweep "Viscosity (μ)" i = Returns [s] /\
    List.length (points s) = 50%nat /\
    forall x k, In (x, k) (points s) -> k = NonFinite.
Proof.
  intros i. apply (zero_drawdown_lines i "Viscosity (μ)").
  - reflexivity.
  - unfold delta_p_options. cbn [In]. tauto.
  - left. cbn [i rw]. lra.
Defined.

(** ** The values along a line *)

Lemma ks_plot (lbl : string) (l : list R) (f : R -> float64) :
  ks (plot lbl l f) = map f l.
Proof.
  unfold ks, plot. cbn [points]. rewrite map_map. reflexivity.
Qed.

Lemma nth_map_R (g : R -> R) (l : list R) (j : nat) :
  (j < List.length l)%nat -> nth j (map g l) 0 = g (nth j l 0).
Proof.
  intros Hj. rewrite (nth_indep _ 0 (g 0)) by (now rewrite length_map).
  apply map_nth.
Qed.

Lemma map_increasing (g : R -> R) (l : list R) :
  strictly_increasing l ->
  (forall x y, In x l -> In y l -> x < y -> g x < g y) ->
  strictly_increasing (map g l).
Proof.
  intros Hl Hg j k [Hjk Hk]. rewrite length_map in Hk.
  rewrite !nth_map_R by lia.
  apply Hg; [apply nth_In; lia | apply nth_In; lia | apply Hl; lia].
Qed.

Lemma map_decreasing (g : R -> R) (l : list R) :
  strictly_increasing l ->
  (forall x y, In x l -> In y l -> x < y -> g y < g x) ->
  strictly_decreasing (map g l).
Proof.
  intros Hl Hg j k [Hjk Hk]. rewrite length_map in Hk.
  rewrite !nth_map_R by lia.
  apply Hg; [apply nth_In; lia | apply nth_In; lia | apply Hl; lia].
Qed.

Lemma linspace_in_range (a b x : R) (n : nat) :
  a <= b -> (1 < n)%nat -> In x (linspace a b n) -> a <= x <= b.
Proof.
  intros Hab Hn Hin. apply linspace_between in Hin; [| assumption].
  revert Hin. unfold Rmin, Rmax. destruct (Rle_dec a b); [tauto | lra].
Qed.

Lemma increasing_non_decreasing (l : list R) :
  strictly_increasing l -> non_decreasing l.
Proof. intros H j k Hjk. left. now apply H. Qed.

Lemma decreasing_non_increasing (l : list R) :
  strictly_decreasing l -> non_increasing l.
Proof. intros H j k Hjk. left. now apply H. Qed.

Lemma line_values (lbl : string) (l : list R) (f : R -> float64) (g : R -> R) :
  (forall x, In x l -> f x = Finite (g x)) ->
  ks (plot lbl l f) = map Finite (map g l).
Proof.
  intros H. rewrite ks_plot, map_map. now apply map_ext_in.
Qed.

(** X14: with [q], [mu], [B], [h] and [pe - pwf] between 1e-30 and 1e30,
    [1 < re/rw <= 1e30] and [0 <= s <= 1e30], the lines of the flow-rate,
    viscosity and skin sweeps consist of finite values that never fall
    along the line, and the line of the thickness sweep of finite values
    that never rise. *)
Theorem field_lines_monotone (i : Inputs) :
  well_scaled i -> rw i <> 0 -> 1 < re i / rw i -> 0 <= skin i ->
  (exists s vals, sweep "Flow rate (q) (STB/day)" i = Returns [s] /\
     ks s = map Finite vals /\ List.length vals = 50%nat /\
     non_decreasing vals) /\
  (exists s vals, sweep "Viscosity (μ)" i = Returns [s] /\
     ks s = map Finite vals /\ List.length vals = 50%nat /\
     non_decreasing vals) /\
  (exists s vals, sweep "Skin (s)" i = Returns [s] /\
     ks s = map Finite vals /\ List.length vals = 50%nat /\
     non_decreasing vals) /\
  (exists s vals, sweep "Layer thickness (h) (ft)" i = Returns [s] /\
     ks s = map Finite vals /\ List.length vals = 50%nat /\
     non_increasing vals).
Proof.
  unfold well_scaled, moderate.
  intros (Hq & Hmu & HB & Hh & Hdp & Hratio & _) Hrw Hgt Hs.
  assert (Hq' : 0 < q i) by lra. assert (Hmu' : 0 < mu i) by lra.
  assert (HB' : 0 < B i) by lra. assert (Hh' : 0 < h i) by lra.
  assert (Hdp' : 0 < pe i - pwf i) by lra.
  assert (Hln : 0 < ln (re i / rw i))
    by (rewrite <- ln_1; apply ln_increasing; lra).
  assert (Hlog : 0 < ln (re i / rw i) + skin i) by lra.
  assert (Hl : log_ratio i = Returns (Finite (ln (re i / rw i))))
    by (apply log_ratio_ok; [assumption | lra]).
  assert (Hden : h i * delta_p i <> 0)
    by (unfold delta_p; apply Rmult_integral_contrapositive_currified; lra).
  split; [| split; [| split]].
  - rewrite (sweep_alone i _ (sweep_q i)) by (unfold blocks; cbn [In]; tauto).
    unfold sweep_q. rewrite Hl. cbn [bind].
    eexists. exists (map (fun x => k_spec (with_q i x)) q_range).
    split; [reflexivity |]. split; [| split].
    + apply line_values. intros x _. cbn [add mul]. now rewrite truediv_ok.
    + rewrite length_map. apply linspace_length.
    + apply increasing_non_decreasing, map_increasing;
        [apply linspace_increasing; lra |].
      intros x y _ _. now apply mono_q.
  - rewrite (sweep_alone i _ (sweep_mu i)) by (unfold blocks; cbn [In]; tauto).
    unfold sweep_mu. rewrite Hl. cbn [bind].
    eexists. exists (map (fun x => k_spec (with_mu i x)) mu_range).
    split; [reflexivity |]. split; [| split].
    + apply line_values. intros x _. cbn [add mul]. now rewrite truediv_ok.
    + rewrite length_map. apply linspace_length.
    + apply increasing_non_decreasing, map_increasing;
        [apply linspace_increasing; lra |].
      intros x y _ _. now apply mono_mu.
  - rewrite (sweep_alone i _ (sweep_skin i)) by (unfold blocks; cbn [In]; tauto).
    unfold sweep_skin. rewrite Hl. cbn [bind].
    eexists. exists (map (fun x => k_spec (with_skin i x)) s_range).
    split; [reflexivity |]. split; [| split].
    + apply line_values. intros x _. cbn [add mul]. now rewrite truediv_ok.
    + rewrite length_map. apply linspace_length.
    + apply increasing_non_decreasing, map_increasing;
        [apply linspace_increasing; lra |].
      intros x y _ _. now apply mono_skin.
  - rewrite (sweep_alone i _ (sweep_h i)) by (unfold blocks; cbn [In]; tauto).
    unfold sweep_h. rewrite Hl. cbn [bind].
    eexists. exists (map (fun x => k_spec (with_h i x)) h_range).
    split; [reflexivity |]. split; [| split].
    + apply line_values. intros x Hx.
      apply linspace_in_range in Hx; [| lra | lia].
      cbn [add mul]. rewrite truediv_ok; [reflexivity |].
      unfold delta_p. apply Rmult_integral_contrapositive_currified; lra.
    + rewrite length_map. apply linspace_length.
    + apply decreasing_non_increasing, map_decreasing;
        [apply linspace_increasing; lra |].
      intros x y Hx _ Hxy. apply linspace_in_range in Hx; [| lra | lia].
      apply mono_h; try assumption; lra.
Qed.

Lemma field_lines_monotone_witness :
  exists s vals, sweep "Layer thickness (h) (ft)" defaults = Returns [s] /\
    ks s = map Finite vals /\ List.length vals = 50%nat /\
    non_increasing vals.
Proof.
  destruct (field_lines_monotone defaults defaults_well_scaled)
    as (_ & _ & _ & Hh); try (cbn [defaults re rw skin]; lra).
  exact Hh.
Defined.

(** X15: with [q], [mu], [B], [h] between 1e-30 and 1e30,
    [1 < re/rw <= 1e30] and [0 <= s <= 1e30]: when [-1e6 <= pwf <= 4899]
    the reservoir-pressure line consists of finite values that never rise
    along the line, and when [151 <= pe <= 1e6] the flowing-pressure line
    consists of finite values that never fall. *)
Theorem pressure_lines_monotone (i : Inputs) :
  moderate (q i) -> moderate (mu i) -> moderate (B i) -> moderate (h i) ->
  rw i <> 0 -> 1 < re i / rw i <= 1e30 -> 0 <= skin i <= 1e30 ->
  (-1e6 <= pwf i <= 4899 ->
   exists s vals, sweep "Reservoir Pressure (Pe)" i = Returns [s] /\
     ks s = map Finite vals /\ List.length vals = 50%nat /\
     non_increasing vals) /\
  (151 <= pe i <= 1e6 ->
   exists s vals, sweep "Bottomhole Flowing Pressure (Pwf)" i = Returns [s] /\
     ks s = map Finite vals /\ List.length vals = 50%nat /\
     non_decreasing vals).
Proof.
  unfold moderate. intros Hq Hmu HB Hh Hrw Hratio Hs.
  assert (Hq' : 0 < q i) by lra. assert (Hmu' : 0 < mu i) by lra.
  assert (HB' : 0 < B i) by lra. assert (Hh' : 0 < h i) by lra.
  assert (Hln : 0 < ln (re i / rw i))
    by (rewrite <- ln_1; apply ln_increasing; lra).
  assert (Hlog : 0 < ln (re i / rw i) + skin i) by lra.
  assert (Hl : log_ratio i = Returns (Finite (ln (re i / rw i))))
    by (apply log_ratio_ok; [assumption | lra]).
  split.
  - intros Hrange. rewrite sweep_pe_alone. unfold sweep_pe. rewrite Hl.
    cbn [bind]. eexists.
    exists (map (fun x => k_spec (with_pressures i x (pwf i))) (pe_range i)).
    split; [reflexivity |]. split; [| split].
    + apply line_values. intros x Hx. unfold pe_range in Hx.
      apply linspace_in_range in Hx; [| lra | lia].
      cbn [add mul]. rewrite truediv_ok; [reflexivity |].
      apply Rmult_integral_contrapositive_currified; lra.
    + rewrite length_map. apply linspace_length.
    + unfold pe_range. apply decreasing_non_increasing, map_decreasing;
        [apply linspace_increasing; lra |].
      intros x y Hx _ Hxy. apply linspace_in_range in Hx; [| lra | lia].
      apply mono_drawdown; try assumption; lra.
  - intros Hrange. rewrite sweep_pwf_alone. unfold sweep_pwf. rewrite Hl.
    cbn [bind]. eexists.
    exists (map (fun x => k_spec (with_pressures i (pe i) x)) (pwf_range i)).
    split; [reflexivity |]. split; [| split].
    + apply line_values. intros x Hx. unfold pwf_range in Hx.
      apply linspace_in_range in Hx; [| lra | lia].
      cbn [add mul]. rewrite truediv_ok; [reflexivity |].
      apply Rmult_integral_contrapositive_currified; lra.
    + rewrite length_map. apply linspace_length.
    + unfold pwf_range. apply increasing_non_decreasing, map_increasing;
        [apply linspace_increasing; lra |].
      intros x y _ Hy Hxy. apply linspace_in_range in Hy; [| lra | lia].
      apply mono_drawdown; try assumption; lra.
Qed.

Lemma pressure_lines_monotone_witness :
  exists s vals,
    sweep "Bottomhole Flowing Pressure (Pwf)" defaults = Returns [s] /\
    ks s = map Finite vals /\ List.length vals = 50%nat /\
    non_decreasing vals.
Proof.
  destruct (pressure_lines_monotone defaults) as [_ Hpwf];
    try (unfold moderate; cbn [defaults q mu B re rw skin h]; lra).
  apply Hpwf. cbn [defaults pe]. lra.
Defined.

(** ** The lines in the invalid region *)

Lemma div_pos_neg (n d : R) : 0 < n -> d < 0 -> n / d < 0.
Proof.
  intros Hn Hd. unfold Rdiv.
  pose proof (Rinv_lt_0_compat d Hd) as Hinv.
  replace 0 with (n * 0) by ring. now apply Rmult_lt_compat_l.
Qed.

(** X16: when [pe < pwf] (the validation message is shown), with [q],
    [mu], [B], [h] and [pwf - pe] between 1e-30 and 1e30,
    [2 <= re/rw <= 1e30] and [0 <= s <= 1e30], the lines of the flow-rate,
    viscosity and thickness sweeps are still drawn and every value on
    them is a negative number. *)
Theorem invalid_region_lines_negative (i : Inputs) :
  moderate (q i) -> moderate (mu i) -> moderate (B i) -> moderate (h i) ->
  moderate (pwf i - pe i) ->
  rw i <> 0 -> 2 <= re i / rw i <= 1e30 -> 0 <= skin i <= 1e30 ->
  point_estimate i = Returns (st_error "Pe must be greater than Pwf") /\
  (exists s, sweep "Flow rate (q) (STB/day)" i = Returns [s] /\
     List.length (points s) = 50%nat /\
     forall x k, In (x, k) (points s) -> exists r, k = Finite r /\ r < 0) /\
  (exists s, sweep "Viscosity (μ)" i = Returns [s] /\
     List.length (points s) = 50%nat /\
     forall x k, In (x, k) (points s) -> exists r, k = Finite r /\ r < 0) /\
  (exists s, sweep "Layer thickness (h) (ft)" i = Returns [s] /\
     List.length (points s) = 50%nat /\
     forall x k, In (x, k) (points s) -> exists r, k = Finite r /\ r < 0).
Proof.
  unfold moderate. intros Hq Hmu HB Hh Hp Hrw Hratio Hs.
  assert (Hln : 0 < ln (re i / rw i))
    by (rewrite <- ln_1; apply ln_increasing; lra).
  assert (Hlog : 0 < ln (re i / rw i) + skin i) by lra.
  assert (Hl : log_ratio i = Returns (Finite (ln (re i / rw i))))
    by (apply log_ratio_ok; [assumption | lra]).
  assert (Hd : delta_p i < 0) by (unfold delta_p; lra).
  assert (Hneg : forall x, 0 < x -> x * delta_p i < 0)
    by (intros x Hx; replace 0 with (x * 0) by ring;
        now apply Rmult_lt_compat_l).
  split; [apply point_estimate_invalid; lra |].
  split; [| split].
  - rewrite (sweep_alone i _ (sweep_q i)) by (unfold blocks; cbn [In]; tauto).
    unfold sweep_q. rewrite Hl. cbn [bind]. eexists. split; [reflexivity |].
    split; [rewrite points_plot_length; apply linspace_length |].
    intros x k Hk. apply points_plot_In in Hk. destruct Hk as [Hx ->].
    apply linspace_in_range in Hx; [| lra | lia].
    cbn [add mul]. pose proof (Hneg (h i) ltac:(lra)).
    rewrite truediv_ok by lra. eexists. split; [reflexivity |].
    apply div_pos_neg; [| assumption].
    apply Rmult_lt_0_compat; [| assumption]. apply coefficient_pos; lra.
  - rewrite (sweep_alone i _ (sweep_mu i)) by (unfold blocks; cbn [In]; tauto).
    unfold sweep_mu. rewrite Hl. cbn [bind]. eexists. split; [reflexivity |].
    split; [rewrite points_plot_length; apply linspace_length |].
    intros x k Hk. apply points_plot_In in Hk. destruct Hk as [Hx ->].
    apply linspace_in_range in Hx; [| lra | lia].
    cbn [add mul]. pose proof (Hneg (h i) ltac:(lra)).
    rewrite truediv_ok by lra. eexists. split; [reflexivity |].
    apply div_pos_neg; [| assumption].
    apply Rmult_lt_0_compat; [| assumption]. apply coefficient_pos; lra.
  - rewrite (sweep_alone i _ (sweep_h i)) by (unfold blocks; cbn [In]; tauto).
    unfold sweep_h. rewrite Hl. cbn [bind]. eexists. split; [reflexivity |].
    split; [rewrite points_plot_length; apply linspace_length |].
    intros x k Hk. apply points_plot_In in Hk. destruct Hk as [Hx ->].
    apply linspace_in_range in Hx; [| lra | lia].
    cbn [add mul]. pose proof (Hneg x ltac:(lra)).
    rewrite truediv_ok by lra. eexists. split; [reflexivity |].
    apply div_pos_neg; [| assumption].
    apply Rmult_lt_0_compat; [| assumption]. apply coefficient_pos; lra.
Qed.

Lemma invalid_region_lines_negative_witness :
  let i := {| q := 500; pe := 1000; pwf := 1500; h := 20; mu := 1; B := 1;
              re := 1000; rw := 0.333; skin := 0 |} in
  exists s, sweep "Flow rate (q) (STB/day)" i = Returns [s] /\
    List.length (points s) = 50%nat /\
    forall x k, In (x, k) (points s) -> exists r, k = Finite r /\ r < 0.
Proof.
  intros i.
  destruct (invalid_region_lines_negative i) as (_ & Hq & _);
    try (unfold moderate; cbn [i q mu B re rw skin h pe pwf]; lra).
  exact Hq.
Defined.

(** ** The selector and the blocks *)

